(** * Superstore dashboard: the filter-and-aggregate pipeline

    A shallow embedding of [streamlit_dashboards.py]: the loader
    ([load_data] and the emptiness check that follows it), the sidebar
    filter ([filtered_df]), the key metrics of the Overview tab and the
    grouped tables behind its charts, and the tables of the Sales Analysis
    and Profit/Loss Analysis tabs.

    Modelling conventions.
    - A DataFrame is the list of its rows, in index order; a column is the
      projection of a field.
    - [Order Date] and [Ship Date] hold date-only cells; a timestamp is the
      number of days since 1970-01-01 in the proleptic Gregorian calendar.
    - [Sales] and [Profit] are float64 columns.  Finite amounts are modelled
      as exact rationals (rounding and signed zeros are out of the model);
      the non-finite results of a float64 division ([inf], [-inf], [nan])
      are modelled explicitly by [float64].  Where the rounding of the
      additions decides, the sums are taken on binary64 ([Binary64]).
    - Every cell is present (no missing values).
    - A sidebar checkbox is keyed by its label, so its state is a function
      of the label; a label that occurs in two filter columns ends the run
      (Streamlit refuses two widgets with one key). *)

From Stdlib Require Import ZArith QArith Qabs Bool List String Lia Lqa
  Permutation Sorted.
From Stdlib Require Floats.
Import ListNotations.
Open Scope Z_scope.

(** ** Calendar: timestamps as day numbers *)

Module Calendar.

Record Civil := { year : Z; month : Z; day : Z }.

Definition is_leap (y : Z) : bool :=
  ((y mod 4 =? 0) && negb (y mod 100 =? 0)) || (y mod 400 =? 0).

Definition days_in_month (y m : Z) : Z :=
  if m =? 2 then (if is_leap y then 29 else 28)
  else if (m =? 4) || (m =? 6) || (m =? 9) || (m =? 11) then 30
  else 31.

Definition valid (c : Civil) : bool :=
  (1 <=? month c) && (month c <=? 12) &&
  (1 <=? day c) && (day c <=? days_in_month (year c) (month c)).

(** Day number of a civil date (days since 1970-01-01). *)
Definition days_from_civil (c : Civil) : Z :=
  let y := if month c <=? 2 then year c - 1 else year c in
  let era := y / 400 in
  let yoe := y - era * 400 in
  let mp := if month c >? 2 then month c - 3 else month c + 9 in
  let doy := (153 * mp + 2) / 5 + day c - 1 in
  let doe := yoe * 365 + yoe / 4 - yoe / 100 + doy in
  era * 146097 + doe - 719468.

(** Civil date of day [doe] of the 400-year era number [era]; eras
    start on a 1 March and last 146097 days. *)
Definition civil_of_era (era doe : Z) : Civil :=
  let yoe := (doe - doe / 1460 + doe / 36524 - doe / 146096) / 365 in
  let doy := doe - (365 * yoe + yoe / 4 - yoe / 100) in
  let mp := (5 * doy + 2) / 153 in
  let d := doy - (153 * mp + 2) / 5 + 1 in
  let m := if mp <? 10 then mp + 3 else mp - 9 in
  {| year := (if m <=? 2 then yoe + era * 400 + 1 else yoe + era * 400);
     month := m; day := d |}.

(** Civil date of a day number. *)
Definition civil_from_days (z : Z) : Civil :=
  let z := z + 719468 in
  let era := z / 146097 in
  civil_of_era era (z - era * 146097).

(** Months counted from year 0: the (year, month) pair as one number. *)
Definition civil_month_index (c : Civil) : Z := year c * 12 + (month c - 1).

Definition month_index (z : Z) : Z := civil_month_index (civil_from_days z).

Definition month_start (mi : Z) : Z :=
  days_from_civil {| year := mi / 12; month := mi mod 12 + 1; day := 1 |}.

(** The label pandas gives a bin of frequency ['M'] (month end): the last
    day of the month. *)
Definition month_end (mi : Z) : Z := month_start (mi + 1) - 1.

(** The last day of the month of a date. *)
Definition last_day_of_month (c : Civil) : Civil :=
  {| year := year c; month := month c;
     day := days_in_month (year c) (month c) |}.

(** The same day and month [k] years later. *)
Definition add_years (k : Z) (c : Civil) : Civil :=
  {| year := year c + k; month := month c; day := day c |}.


(** *** Checks over the months of one era, run by evaluation *)

(** [f] holds at the [2 ^ depth] numbers from [lo] on that lie below
    [bound]. *)
Fixpoint all_below (depth : nat) (bound : Z) (f : Z -> bool) (lo : Z) : bool :=
  match depth with
  | O => (bound <=? lo) || f lo
  | S d => all_below d bound f lo && all_below d bound f (lo + 2 ^ Z.of_nat d)
  end.

(** Month [mi] of the first 400 years starts on the first day that has
    month index [mi]. *)
Definition check_month (mi : Z) : bool :=
  (month_index (month_start mi) =? mi) &&
  (month_index (month_start mi - 1) =? mi - 1).

(** Month [mi] of the first 400 years has the length [days_in_month]
    gives it. *)
Definition check_length (mi : Z) : bool :=
  month_start (mi + 1) - month_start mi
  =? days_in_month (mi / 12) (mi mod 12 + 1).

End Calendar.

(** ** Float64 results: exact finite values and the IEEE special values *)

Inductive float64 : Type :=
| Finite (q : Q)
| PosInf
| NegInf
| NaN.

Definition Qltb (x y : Q) : bool := negb (Qle_bool y x).

Definition is_zero (q : Q) : bool := Qeq_bool q 0.

Definition signed_inf (negative : bool) : float64 :=
  if negative then NegInf else PosInf.

(** [x / y] on float64: a zero divisor gives [nan] for a zero dividend and
    a signed infinity otherwise; nothing is raised. *)
Definition fdiv (x y : float64) : float64 :=
  match x, y with
  | NaN, _ | _, NaN => NaN
  | Finite a, Finite b =>
      if is_zero b then (if is_zero a then NaN else signed_inf (Qltb a 0))
      else Finite (a / b)
  | Finite _, (PosInf | NegInf) => Finite 0
  | PosInf, Finite b => signed_inf (Qltb b 0)
  | NegInf, Finite b => signed_inf (negb (Qltb b 0))
  | (PosInf | NegInf), (PosInf | NegInf) => NaN
  end.

(** [x * y] on float64. *)
Definition fmul (x y : float64) : float64 :=
  match x, y with
  | NaN, _ | _, NaN => NaN
  | Finite a, Finite b => Finite (a * b)
  | Finite a, PosInf | PosInf, Finite a =>
      if is_zero a then NaN else signed_inf (Qltb a 0)
  | Finite a, NegInf | NegInf, Finite a =>
      if is_zero a then NaN else signed_inf (negb (Qltb a 0))
  | PosInf, PosInf | NegInf, NegInf => PosInf
  | PosInf, NegInf | NegInf, PosInf => NegInf
  end.

Definition is_finite (x : float64) : bool :=
  match x with Finite _ => true | _ => false end.

(** *** The same expression on the kernel's binary64 floats

    Used only to check, at the inputs of the worked scenarios, that the
    special values of [fdiv] and [fmul] are those of IEEE 754. *)

Inductive FloatKind := KindFinite | KindPosInf | KindNegInf | KindNaN.

Definition float64_kind (x : float64) : FloatKind :=
  match x with
  | Finite _ => KindFinite
  | PosInf => KindPosInf
  | NegInf => KindNegInf
  | NaN => KindNaN
  end.

Module Binary64.
Import Floats.

(** [profit / sales * 100] on binary64. *)
Definition margin (profit sales : float) : float :=
  (profit / sales * 100)%float.

Definition kind (x : float) : FloatKind :=
  match PrimFloat.classify x with
  | FloatClass.NaN => KindNaN
  | FloatClass.PInf => KindPosInf
  | FloatClass.NInf => KindNegInf
  | _ => KindFinite
  end.

Definition strictly_between (lo x hi : float) : bool :=
  PrimFloat.ltb lo x && PrimFloat.ltb x hi.

(** The binary64 value of a whole number below [2 ^ 53]. *)
Definition of_Z (z : Z) : float :=
  match z with
  | Z0 => 0%float
  | Zpos _ => PrimFloat.of_uint63 (Uint63.of_Z z)
  | Zneg p => (- PrimFloat.of_uint63 (Uint63.of_Z (Zpos p)))%float
  end.

(** The float64 cell of a decimal amount: the binary64 nearest to the
    quotient (numerator and denominator below [2 ^ 53]). *)
Definition of_Q (q : Q) : float :=
  (of_Z (Qnum q) / of_Z (Zpos (Qden q)))%float.

(** [Series.sum()] on a float64 column of fewer than eight cells: the
    cells are added one after the other, each addition rounded.  A longer
    column is added in blocks, in an order that is not modelled ([None]);
    the sign of a zero sum is not modelled either. *)
Definition sum (l : list float) : option float :=
  if (List.length l <? 8)%nat
  then Some (fold_left PrimFloat.add l 0%float)
  else None.

(** One step of the compensated sum of [groupby(...).sum()]: the running
    sum and the rounding error carried over ([0] in place of a [nan]
    error, which an infinite cell gives). *)
Definition kahan_step (acc : float * float) (val : float) : float * float :=
  let (sumx, compensation) := acc in
  let y := (val - compensation)%float in
  let t := (sumx + y)%float in
  let c := (t - sumx - y)%float in
  (t, if PrimFloat.eqb c c then c else 0%float).

(** The sum of one group of [groupby(...).agg({column: 'sum'})]. *)
Definition group_sum (l : list float) : float :=
  fst (fold_left kahan_step l (0%float, 0%float)).

End Binary64.

(** ** Series helpers *)

(** [Series.sum()], 0 on the empty series, as the exact sum of the cells:
    the float64 result is this sum up to the rounding of each addition
    ([Binary64.sum] and [Binary64.group_sum] have the rounding). *)
Definition Qsum (l : list Q) : Q := fold_right Qplus 0%Q l.

(** [Series.isin(values)]. *)
Definition isin (v : string) (values : list string) : bool :=
  existsb (String.eqb v) values.

(** The distinct values of a column in order of first appearance. *)
Fixpoint distinct {K : Type} (eqb : K -> K -> bool) (l : list K) : list K :=
  match l with
  | [] => []
  | x :: xs => x :: filter (fun y => negb (eqb y x)) (distinct eqb xs)
  end.

(** [Series.unique()] on a text column. *)
Definition unique (l : list string) : list string := distinct String.eqb l.

(** [Series.nunique()]. *)
Definition nunique (l : list string) : nat := List.length (unique l).

(** [Series.min()] and [Series.max()] of a timestamp column known to be
    non-empty (the first row is passed apart). *)
Definition Zmin_list (x : Z) (l : list Z) : Z := fold_left Z.min l x.
Definition Zmax_list (x : Z) (l : list Z) : Z := fold_left Z.max l x.

(** ** The record set *)

(** A line of the CSV file as [read_csv] returns it: the two date cells are
    still text, modelled by the civil date they spell. *)
Record RawRow := {
  raw_Order_ID : string;
  raw_Order_Date : Calendar.Civil;
  raw_Ship_Date : Calendar.Civil;
  raw_Ship_Mode : string;
  raw_Customer_Name : string;
  raw_Segment : string;
  raw_State : string;
  raw_Region : string;
  raw_Category : string;
  raw_Sub_Category : string;
  raw_Sales : Q;
  raw_Quantity : Z;
  raw_Discount : Q;
  raw_Profit : Q
}.

(** A row of [df] after [load_data]. *)
Record Row := {
  Order_ID : string;
  Order_Date : Z;
  Ship_Date : Z;
  Ship_Mode : string;
  Customer_Name : string;
  Segment : string;
  State : string;
  Region : string;
  Category : string;
  Sub_Category : string;
  Sales : Q;
  Quantity : Z;
  Discount : Q;
  Profit : Q;
  Processing_Time : Z
}.

Definition DataFrame := list Row.

(** ** Loader *)

Inductive Exception :=
| ReadError           (* [pd.read_csv] raised *)
| DateParseError      (* [pd.to_datetime] raised a [ValueError] *)
| TimedeltaOverflow   (* the subtraction of the two date columns raised *)
| DuplicateWidgetID.  (* [st.checkbox] raised: two widgets with one key *)

Inductive Outcome (A : Type) :=
| Ok (a : A)
| Raise (e : Exception).
Arguments Ok {A} a.
Arguments Raise {A} e.

Definition bind {A B} (m : Outcome A) (k : A -> Outcome B) : Outcome B :=
  match m with
  | Ok a => k a
  | Raise e => Raise e
  end.

Notation "x <- m ;; k" := (bind m (fun x => k))
  (at level 61, m at next level, right associativity).

Fixpoint traverse {A B} (f : A -> Outcome B) (l : list A) : Outcome (list B) :=
  match l with
  | [] => Ok []
  | a :: l' => b <- f a ;; bs <- traverse f l' ;; Ok (b :: bs)
  end.

(** What a path holds: nothing, a file that cannot be read as CSV, or a
    table. *)
Inductive File :=
| Unreadable
| Csv (rows : list RawRow).

Definition FileSystem := string -> option File.

Definition path_exists (fs : FileSystem) (p : string) : bool :=
  match fs p with Some _ => true | None => false end.

Definition read_csv (fs : FileSystem) (p : string) : Outcome (list RawRow) :=
  match fs p with
  | Some (Csv rows) => Ok rows
  | _ => Raise ReadError
  end.

(** A [Timestamp] counts nanoseconds since 1970-01-01 in 64 bits, the
    least 64-bit value apart (it is [NaT]). *)
Definition nanoseconds (z : Z) : Z := z * 86400000000000.

Definition in_timestamp_bounds (z : Z) : bool :=
  (-9223372036854775807 <=? nanoseconds z) &&
  (nanoseconds z <=? 9223372036854775807).

(** The cell spells a date, and a [Timestamp] holds that date. *)
Definition date_parses (c : Calendar.Civil) : bool :=
  Calendar.valid c && in_timestamp_bounds (Calendar.days_from_civil c).

(** [pd.to_datetime] on one cell: raises a [ValueError] on text that is
    not a date and on a date out of the bounds of [Timestamp]
    ([OutOfBoundsDatetime], a [ValueError] too). *)
Definition to_datetime (c : Calendar.Civil) : Outcome Z :=
  if date_parses c then Ok (Calendar.days_from_civil c)
  else Raise DateParseError.

Definition in_int64 (n : Z) : bool :=
  (-9223372036854775808 <=? n) && (n <=? 9223372036854775807).

(** [(ship - order).dt.days] on two timestamps: the subtraction is done on
    the nanoseconds in 64 bits and raises when it overflows. *)
Definition timedelta_days (ship order : Z) : Outcome Z :=
  if in_int64 (nanoseconds ship - nanoseconds order) then Ok (ship - order)
  else Raise TimedeltaOverflow.

(** A line with its two dates converted and its processing time. *)
Definition assemble (r : RawRow) (order_date ship_date processing_time : Z)
  : Row :=
  {| Order_ID := raw_Order_ID r;
     Order_Date := order_date;
     Ship_Date := ship_date;
     Ship_Mode := raw_Ship_Mode r;
     Customer_Name := raw_Customer_Name r;
     Segment := raw_Segment r;
     State := raw_State r;
     Region := raw_Region r;
     Category := raw_Category r;
     Sub_Category := raw_Sub_Category r;
     Sales := raw_Sales r;
     Quantity := raw_Quantity r;
     Discount := raw_Discount r;
     Profit := raw_Profit r;
     Processing_Time := processing_time |}.

(** The three column assignments of [load_data] on one line. *)
Definition load_row (r : RawRow) : Outcome Row :=
  order_date <- to_datetime (raw_Order_Date r) ;;
  ship_date <- to_datetime (raw_Ship_Date r) ;;
  processing_time <- timedelta_days ship_date order_date ;;
  Ok (assemble r order_date ship_date processing_time).

(** The three column assignments of [load_data] on the table, in the order
    of the code: the whole order date column is converted, then the whole
    ship date column, then the two columns are subtracted. *)
Definition load_columns (rows : list RawRow) : Outcome DataFrame :=
  order_dates <- traverse to_datetime (map raw_Order_Date rows) ;;
  ship_dates <- traverse to_datetime (map raw_Ship_Date rows) ;;
  processing_times <-
    traverse (fun so => timedelta_days (fst so) (snd so))
      (combine ship_dates order_dates) ;;
  Ok (map (fun c => assemble (fst c) (fst (snd c)) (fst (snd (snd c)))
                      (snd (snd (snd c))))
        (combine rows
           (combine order_dates (combine ship_dates processing_times)))).

(** Messages shown by [st.error]. *)
Inductive Message := Error (text : string).

Definition csv_here : string := "Sample - Superstore.csv".
Definition csv_parent : string := "../Sample - Superstore.csv".

Definition not_found_message : Message :=
  Error "Dataset file 'Sample - Superstore.csv' not found in current or parent directory.".

Definition failed_message : Message :=
  Error "Failed to load the dataset. Please check that the CSV file exists.".

Definition load_from (fs : FileSystem) (file_path : string) : Outcome DataFrame :=
  rows <- read_csv fs file_path ;;
  load_columns rows.

(** [load_data]: the messages it shows and what it returns or raises. *)
Definition load_data (fs : FileSystem) : list Message * Outcome DataFrame :=
  if path_exists fs csv_here then ([], load_from fs csv_here)
  else if path_exists fs csv_parent then ([], load_from fs csv_parent)
  else ([not_found_message], Ok []).

(** [df.empty]. *)
Definition empty (df : DataFrame) : bool :=
  match df with [] => true | _ :: _ => false end.

(** ** Filter *)

Inductive Dimension :=
| DimCategory | DimSubCategory | DimRegion | DimState | DimShipMode | DimSegment.

Definition column (d : Dimension) (r : Row) : string :=
  match d with
  | DimCategory => Category r
  | DimSubCategory => Sub_Category r
  | DimRegion => Region r
  | DimState => State r
  | DimShipMode => Ship_Mode r
  | DimSegment => Segment r
  end.

(** The values the sidebar hands to the filter. *)
Record FilterSpec := {
  start_date : Z;
  end_date : Z;
  selected_categories : list string;
  selected_subcategories : list string;
  selected_regions : list string;
  selected_states : list string;
  selected_ship_modes : list string;
  selected_segments : list string
}.

Definition allowed (s : FilterSpec) (d : Dimension) : list string :=
  match d with
  | DimCategory => selected_categories s
  | DimSubCategory => selected_subcategories s
  | DimRegion => selected_regions s
  | DimState => selected_states s
  | DimShipMode => selected_ship_modes s
  | DimSegment => selected_segments s
  end.

(** The boolean mask of [filtered_df], conjunct by conjunct. *)
Definition mask (s : FilterSpec) (r : Row) : bool :=
  (Order_Date r >=? start_date s) &&
  (Order_Date r <=? end_date s) &&
  isin (Category r) (selected_categories s) &&
  isin (Region r) (selected_regions s) &&
  isin (Ship_Mode r) (selected_ship_modes s) &&
  isin (State r) (selected_states s) &&
  isin (Segment r) (selected_segments s) &&
  isin (Sub_Category r) (selected_subcategories s).

Definition filtered_df (df : DataFrame) (s : FilterSpec) : DataFrame :=
  filter (mask s) df.

(** *** The sidebar *)

(** What the user set: the two date inputs and the state of every checkbox
    (a checkbox is keyed by its label). *)
Record Sidebar := {
  start_input : Z;
  end_input : Z;
  checked : string -> bool
}.

Definition min_date (first : Row) (rest : DataFrame) : Z :=
  Zmin_list (Order_Date first) (map Order_Date rest).

Definition max_date (first : Row) (rest : DataFrame) : Z :=
  Zmax_list (Order_Date first) (map Order_Date rest).

(** One expander: a checkbox per distinct value, the checked ones appended
    in order. *)
Definition selected (ui : Sidebar) (d : Dimension) (df : DataFrame) : list string :=
  filter (checked ui) (unique (map (column d) df)).

Definition sidebar_spec (ui : Sidebar) (df : DataFrame) : FilterSpec :=
  {| start_date := start_input ui;
     end_date := end_input ui;
     selected_categories := selected ui DimCategory df;
     selected_subcategories := selected ui DimSubCategory df;
     selected_regions := selected ui DimRegion df;
     selected_states := selected ui DimState df;
     selected_ship_modes := selected ui DimShipMode df;
     selected_segments := selected ui DimSegment df |}.

(** The keys of the checkboxes, in the order the script makes them: each
    checkbox has its label as key. *)
Definition checkbox_keys (df : DataFrame) : list string :=
  flat_map (fun d => unique (map (column d) df))
    [DimCategory; DimSubCategory; DimRegion; DimState; DimShipMode; DimSegment].

Fixpoint has_duplicate (l : list string) : bool :=
  match l with
  | [] => false
  | x :: xs => isin x xs || has_duplicate xs
  end.

(** The six expanders as the script runs them: Streamlit refuses a second
    widget with the key of an earlier one, so a label that occurs in two
    filter columns ends the run at its second checkbox; otherwise the six
    lists of [sidebar_spec] are built. *)
Definition draw_sidebar (ui : Sidebar) (df : DataFrame) : Outcome FilterSpec :=
  if has_duplicate (checkbox_keys df) then Raise DuplicateWidgetID
  else Ok (sidebar_spec ui df).

(** The sidebar as first drawn: both dates at the extremes of the data and
    every checkbox checked. *)
Definition default_sidebar (first : Row) (rest : DataFrame) : Sidebar :=
  {| start_input := min_date first rest;
     end_input := max_date first rest;
     checked := fun _ => true |}.

Definition dimension_eqb (d d' : Dimension) : bool :=
  match d, d' with
  | DimCategory, DimCategory | DimSubCategory, DimSubCategory
  | DimRegion, DimRegion | DimState, DimState
  | DimShipMode, DimShipMode | DimSegment, DimSegment => true
  | _, _ => false
  end.

(** The spec with the allowed values of dimension [d] replaced. *)
Definition with_allowed (d : Dimension) (values : list string) (s : FilterSpec)
  : FilterSpec :=
  let pick d' := if dimension_eqb d d' then values else allowed s d' in
  {| start_date := start_date s;
     end_date := end_date s;
     selected_categories := pick DimCategory;
     selected_subcategories := pick DimSubCategory;
     selected_regions := pick DimRegion;
     selected_states := pick DimState;
     selected_ship_modes := pick DimShipMode;
     selected_segments := pick DimSegment |}.

(** Removing one value from the allowed values of one dimension
    (unchecking its box). *)
Definition remove_value (d : Dimension) (v : string) (s : FilterSpec) : FilterSpec :=
  with_allowed d (filter (fun x => negb (String.eqb x v)) (allowed s d)) s.

(** ** Key metrics *)

Definition total_sales (fdf : DataFrame) : Q := Qsum (map Sales fdf).

Definition total_profit (fdf : DataFrame) : Q := Qsum (map Profit fdf).

(** [Profit.sum() / Sales.sum() * 100]. *)
Definition profit_margin (profit sales : Q) : float64 :=
  fmul (fdiv (Finite profit) (Finite sales)) (Finite 100).

Definition average_profit_margin (fdf : DataFrame) : float64 :=
  profit_margin (total_profit fdf) (total_sales fdf).

(** [abs(filtered_df[filtered_df['Profit'] < 0]['Profit'].sum())]. *)
Definition total_losses (fdf : DataFrame) : Q :=
  Qabs (Qsum (map Profit (filter (fun r => Qltb (Profit r) 0) fdf))).

Definition total_orders (fdf : DataFrame) : nat := nunique (map Order_ID fdf).

Record KPI := {
  totalSales : Q;
  totalProfit : Q;
  avgMarginPct : float64;
  totalLosses : Q;
  totalOrders : nat
}.

Definition key_metrics (fdf : DataFrame) : KPI :=
  {| totalSales := total_sales fdf;
     totalProfit := total_profit fdf;
     avgMarginPct := average_profit_margin fdf;
     totalLosses := total_losses fdf;
     totalOrders := total_orders fdf |}.

(** ** Grouped tables *)

Section GroupBy.

Context {K : Type} (eqb leb : K -> K -> bool).

Fixpoint insert_key (k : K) (l : list K) : list K :=
  match l with
  | [] => [k]
  | x :: xs => if leb k x then k :: l else x :: insert_key k xs
  end.

Definition sort_keys (l : list K) : list K := fold_right insert_key [] l.

(** The group keys of [df.groupby(key)]: the distinct keys, sorted. *)
Definition group_keys (key : Row -> K) (df : DataFrame) : list K :=
  sort_keys (distinct eqb (map key df)).

Definition group (key : Row -> K) (df : DataFrame) (k : K) : DataFrame :=
  filter (fun r => eqb (key r) k) df.

(** [df.groupby(key)]: each key with its rows, in key order. *)
Definition groupby (key : Row -> K) (df : DataFrame) : list (K * DataFrame) :=
  map (fun k => (k, group key df k)) (group_keys key df).

(** The sum of a field over the group of key [k]. *)
Definition group_sum (key : Row -> K) (field : Row -> Q) (df : DataFrame) (k : K) : Q :=
  Qsum (map field (group key df k)).

(** [.agg({field: 'sum'})]. *)
Definition agg_sum (field : Row -> Q) (g : list (K * DataFrame)) : list (K * Q) :=
  map (fun kg => (fst kg, Qsum (map field (snd kg)))) g.

(** A row of [.agg({'Sales': 'sum', 'Profit': 'sum'})] with the
    ['Profit Margin'] column added. *)
Record SalesProfit := {
  sp_key : K;
  sp_Sales : Q;
  sp_Profit : Q;
  sp_Profit_Margin : float64
}.

Definition sales_profit_row (kg : K * DataFrame) : SalesProfit :=
  let sales := Qsum (map Sales (snd kg)) in
  let profit := Qsum (map Profit (snd kg)) in
  {| sp_key := fst kg;
     sp_Sales := sales;
     sp_Profit := profit;
     sp_Profit_Margin := profit_margin profit sales |}.

Definition sales_profit_by (key : Row -> K) (df : DataFrame) : list SalesProfit :=
  map sales_profit_row (groupby key df).

(** [sort_values(by, ascending=False)] on a (key, value) table, as a
    stable sort: rows of equal value keep their order (pandas leaves the
    order of ties to the sort kind). *)
Fixpoint insert_desc (x : K * Q) (l : list (K * Q)) : list (K * Q) :=
  match l with
  | [] => [x]
  | y :: ys => if Qle_bool (snd y) (snd x) then x :: l else y :: insert_desc x ys
  end.

Definition sort_values_desc (l : list (K * Q)) : list (K * Q) :=
  fold_right insert_desc [] l.

End GroupBy.

Arguments sp_key {K} _.
Arguments sp_Sales {K} _.
Arguments sp_Profit {K} _.
Arguments sp_Profit_Margin {K} _.

(** Tuples of column values, for grouping on several columns:
    equality and lexicographic order. *)
Fixpoint keys_eqb (a b : list string) : bool :=
  match a, b with
  | [], [] => true
  | x :: a', y :: b' => String.eqb x y && keys_eqb a' b'
  | _, _ => false
  end.

Fixpoint keys_leb (a b : list string) : bool :=
  match a, b with
  | [], _ => true
  | _ :: _, [] => false
  | x :: a', y :: b' =>
      if String.eqb x y then keys_leb a' b' else String.leb x y
  end.

(** [filtered_df.groupby(['c1', ..., 'cn'])] on text columns: the key of a
    row is the tuple of its values in these columns. *)
Definition key_of (cols : list (Row -> string)) (r : Row) : list string :=
  map (fun col => col r) cols.

Definition groupby_columns (cols : list (Row -> string)) (fdf : DataFrame)
  : list (list string * DataFrame) :=
  groupby keys_eqb keys_leb (key_of cols) fdf.

(** [cat_subcat_profit]: profit summed by category and sub-category. *)
Definition cat_subcat_profit (fdf : DataFrame) : list (list string * Q) :=
  agg_sum Profit (groupby_columns [Category; Sub_Category] fdf).

Definition category_sales (fdf : DataFrame) : list (SalesProfit (K := string)) :=
  sales_profit_by String.eqb String.leb Category fdf.

Definition region_sales (fdf : DataFrame) : list (SalesProfit (K := string)) :=
  sales_profit_by String.eqb String.leb Region fdf.

Definition subcategory_sales (fdf : DataFrame) : list (string * Q) :=
  sort_values_desc
    (agg_sum Sales (groupby String.eqb String.leb Sub_Category fdf)).

(** *** Monthly trend *)

Definition Zrange (lo : Z) (n : nat) : list Z :=
  map (fun i => lo + Z.of_nat i) (seq 0 n).

Definition in_month (mi : Z) (fdf : DataFrame) : DataFrame :=
  filter (fun r => Calendar.month_index (Order_Date r) =? mi) fdf.

Record MonthRow := {
  m_Order_Date : Z;
  m_Sales : Q;
  m_Profit : Q
}.

Definition month_row (fdf : DataFrame) (mi : Z) : MonthRow :=
  {| m_Order_Date := Calendar.month_end mi;
     m_Sales := Qsum (map Sales (in_month mi fdf));
     m_Profit := Qsum (map Profit (in_month mi fdf)) |}.

(** The bins of [pd.Grouper(key='Order Date', freq='M')]: one per calendar
    month from the month of the earliest order date to the month of the
    latest.  pandas keeps every bin of that range, a bin without rows too
    (its sums are 0), and labels each bin by its right edge, the month
    end. *)
Definition month_bins (fdf : DataFrame) : list Z :=
  match fdf with
  | [] => []
  | first :: rest =>
      let lo := Calendar.month_index (min_date first rest) in
      let hi := Calendar.month_index (max_date first rest) in
      Zrange lo (Z.to_nat (hi - lo + 1))
  end.

Definition monthly_sales (fdf : DataFrame) : list MonthRow :=
  map (month_row fdf) (month_bins fdf).

(** *** The sums as float64 computes them *)

Module Binary64Tables.

(** The float64 cells of a column. *)
Definition cells (field : Row -> Q) (df : DataFrame) : list PrimFloat.float :=
  map (fun r => Binary64.of_Q (field r)) df.

(** [filtered_df['Sales'].sum()]. *)
Definition total_sales (fdf : DataFrame) : option PrimFloat.float :=
  Binary64.sum (cells Sales fdf).

(** The ['Sales'] column of [category_sales]. *)
Definition category_sales (fdf : DataFrame) : list (string * PrimFloat.float) :=
  map (fun kg => (fst kg, Binary64.group_sum (cells Sales (snd kg))))
    (groupby String.eqb String.leb Category fdf).

End Binary64Tables.

(** ** The script *)

Record Dashboard := {
  d_filtered_df : DataFrame;
  d_key_metrics : KPI;
  d_monthly_sales : list MonthRow;
  d_category_sales : list (SalesProfit (K := string));
  d_region_sales : list (SalesProfit (K := string));
  d_subcategory_sales : list (string * Q)
}.

Definition render (fdf : DataFrame) : Dashboard :=
  {| d_filtered_df := fdf;
     d_key_metrics := key_metrics fdf;
     d_monthly_sales := monthly_sales fdf;
     d_category_sales := category_sales fdf;
     d_region_sales := region_sales fdf;
     d_subcategory_sales := subcategory_sales fdf |}.

(** How a run of the script ends. *)
Inductive Run :=
| Crashed (log : list Message) (e : Exception)   (* an exception ended the run *)
| Stopped (log : list Message)                   (* [st.stop()] *)
| Rendered (log : list Message) (d : Dashboard).

Definition script (fs : FileSystem) (ui : Sidebar) : Run :=
  let (log, loaded) := load_data fs in
  match loaded with
  | Raise e => Crashed log e
  | Ok df =>
      if empty df then Stopped (log ++ [failed_message])
      else
        match draw_sidebar ui df with
        | Raise e => Crashed log e
        | Ok spec => Rendered log (render (filtered_df df spec))
        end
  end.

(** ** The filter contract, in the words of the specification *)

(** A record passes when its order date lies in the closed interval and its
    value in every categorical dimension is one of the allowed values. *)
Definition passes (s : FilterSpec) (r : Row) : Prop :=
  (start_date s <= Order_Date r <= end_date s) /\
  (forall d : Dimension, In (column d r) (allowed s d)).

(** [Selects P l out]: [out] keeps exactly the elements of [l] that satisfy
    [P], each as often as it occurs and in the order of [l]. *)
Inductive Selects {A : Type} (P : A -> Prop) : list A -> list A -> Prop :=
| Selects_nil : Selects P [] []
| Selects_keep x l out : P x -> Selects P l out -> Selects P (x :: l) (x :: out)
| Selects_drop x l out : ~ P x -> Selects P l out -> Selects P (x :: l) out.

(** [Subsequence out l]: [out] is [l] with some elements left out. *)
Inductive Subsequence {A : Type} : list A -> list A -> Prop :=
| Subsequence_nil : Subsequence [] []
| Subsequence_keep x out l : Subsequence out l -> Subsequence (x :: out) (x :: l)
| Subsequence_skip x out l : Subsequence out l -> Subsequence out (x :: l).

(** The all-zero metrics of an empty selection. *)
Definition zero_metrics : KPI :=
  {| totalSales := 0; totalProfit := 0; avgMarginPct := NaN;
     totalLosses := 0; totalOrders := 0 |}.

(** ** The key metrics, in the words of the specification *)

(** Sum of the absolute values of the negative profits. *)
Definition losses_spec (fdf : DataFrame) : Q :=
  Qsum (map Qabs (filter (fun p => Qltb p 0) (map Profit fdf))).

(** [n] is the number of distinct values in [l]. *)
Definition counts_distinct (l : list string) (n : nat) : Prop :=
  exists u, NoDup u /\ (forall x, In x u <-> In x l) /\ n = List.length u.

(** The value float64 division gives a dividend over a zero divisor. *)
Definition zero_division (dividend : Q) : float64 :=
  if is_zero dividend then NaN else signed_inf (Qltb dividend 0).

(** What a zero denominator yields for the dividend [profit]: never a
    finite number; [nan], [inf] or [-inf] by the sign of the dividend. *)
Definition zero_denominator_result (profit : Q) (margin : float64) : Prop :=
  margin = zero_division profit /\
  (margin = NaN <-> (profit == 0)%Q) /\
  (margin = PosInf <-> (0 < profit)%Q) /\
  (margin = NegInf <-> (profit < 0)%Q) /\
  is_finite margin = false.

(** ** The state of the data source *)

(** Neither path holds the file. *)
Definition source_missing (fs : FileSystem) : Prop :=
  fs csv_here = None /\ fs csv_parent = None.

(** The path [load_data] settles on holds a file that cannot be read. *)
Definition source_unreadable (fs : FileSystem) : Prop :=
  fs csv_here = Some Unreadable \/
  (fs csv_here = None /\ fs csv_parent = Some Unreadable).

(** The run ended before the filter: no dashboard was computed. *)
Definition halted_before_filtering (r : Run) : Prop :=
  match r with
  | Crashed _ _ | Stopped _ => True
  | Rendered _ _ => False
  end.

(** ** Sample data for the worked scenarios *)

Module Sample.

Local Open Scope string_scope.

Definition civil (y m d : Z) : Calendar.Civil :=
  {| Calendar.year := y; Calendar.month := m; Calendar.day := d |}.

Definition date (y m d : Z) : Z := Calendar.days_from_civil (civil y m d).

Definition raw (id : string) (order ship : Calendar.Civil)
    (category sub region : string) (sales profit : Q) : RawRow :=
  {| raw_Order_ID := id;
     raw_Order_Date := order;
     raw_Ship_Date := ship;
     raw_Ship_Mode := "Standard Class";
     raw_Customer_Name := "Claire Gute";
     raw_Segment := "Consumer";
     raw_State := "Kentucky";
     raw_Region := region;
     raw_Category := category;
     raw_Sub_Category := sub;
     raw_Sales := sales;
     raw_Quantity := 1;
     raw_Discount := 0;
     raw_Profit := profit |}.

Definition row (id : string) (order : Z)
    (category sub region : string) (sales profit : Q) : Row :=
  {| Order_ID := id;
     Order_Date := order;
     Ship_Date := order + 4;
     Ship_Mode := "Standard Class";
     Customer_Name := "Claire Gute";
     Segment := "Consumer";
     State := "Kentucky";
     Region := region;
     Category := category;
     Sub_Category := sub;
     Sales := sales;
     Quantity := 1;
     Discount := 0;
     Profit := profit;
     Processing_Time := 4 |}.

(** Two records with sales 100 and 50, profit 20 and -10. *)
Definition two_records : DataFrame :=
  [ row "CA-2023-1" (date 2023 1 1) "Furniture" "Chairs" "South" 100 20;
    row "CA-2023-2" (date 2023 1 9) "Technology" "Phones" "West" 50 (-10) ].

(** Three records in March 2023 with sales 10, 20 and 30. *)
Definition march_records : DataFrame :=
  [ row "CA-2023-3" (date 2023 3 2) "Furniture" "Chairs" "South" 10 1;
    row "CA-2023-4" (date 2023 3 17) "Furniture" "Tables" "South" 20 2;
    row "CA-2023-5" (date 2023 3 31) "Technology" "Phones" "West" 30 3 ].

(** One record in January 2023 and one in March 2023: February is empty. *)
Definition january_and_march : DataFrame :=
  [ row "CA-2023-6" (date 2023 1 15) "Furniture" "Chairs" "South" 10 1;
    row "CA-2023-7" (date 2023 3 10) "Technology" "Phones" "West" 30 3 ].

(** A record given away: no sales, a loss of 5. *)
Definition giveaway : DataFrame :=
  [ row "CA-2023-8" (date 2023 5 5) "Office Supplies" "Paper" "East" 0 (-5) ].

(** A spec that admits every row of [two_records]. *)
Definition wide_spec : FilterSpec :=
  {| start_date := date 2023 1 1;
     end_date := date 2023 12 31;
     selected_categories := ["Furniture"; "Technology"];
     selected_subcategories := ["Chairs"; "Phones"];
     selected_regions := ["South"; "West"];
     selected_states := ["Kentucky"];
     selected_ship_modes := ["Standard Class"];
     selected_segments := ["Consumer"] |}.

(** The same with every region unchecked. *)
Definition no_region_spec : FilterSpec :=
  {| start_date := date 2023 1 1;
     end_date := date 2023 12 31;
     selected_categories := ["Furniture"; "Technology"];
     selected_subcategories := ["Chairs"; "Phones"];
     selected_regions := [];
     selected_states := ["Kentucky"];
     selected_ship_modes := ["Standard Class"];
     selected_segments := ["Consumer"] |}.

(** Ordered 2023-01-01, shipped 2023-01-05. *)
Definition shipped_in_four : RawRow :=
  raw "CA-2023-9" (civil 2023 1 1) (civil 2023 1 5) "Furniture" "Chairs" "South" 100 20.

(** Shipped two days before it was ordered. *)
Definition shipped_before_ordered : RawRow :=
  raw "CA-2023-10" (civil 2023 1 5) (civil 2023 1 3) "Furniture" "Chairs" "South" 100 20.

(** A directory without the CSV file, one with an unreadable file, one
    with a file of two lines. *)
Definition no_file : FileSystem := fun _ => None.

Definition unreadable_file : FileSystem :=
  fun p => if String.eqb p csv_here then Some Unreadable else None.

Definition good_file : FileSystem :=
  fun p => if String.eqb p csv_here
           then Some (Csv [shipped_in_four; shipped_before_ordered])
           else None.

Definition all_checked : Sidebar :=
  {| start_input := date 2023 1 1;
     end_input := date 2023 12 31;
     checked := fun _ => true |}.

(** Sales of 0.3 and 0.2 in one category and 0.1 in another. *)
Definition tenths : DataFrame :=
  [ row "CA-2023-12" (date 2023 6 1) "Furniture" "Chairs" "South" 0.3 0;
    row "CA-2023-13" (date 2023 6 2) "Technology" "Phones" "West" 0.1 0;
    row "CA-2023-14" (date 2023 6 3) "Furniture" "Tables" "South" 0.2 0 ].





End Sample.

(** ** More tables of the dashboard *)

(** *** Sorting rows by a column, and the first rows *)

Section SortBy.

Context {A : Type} (value : A -> Q).

(** [sort_values(by, ascending=False)].  Rows of equal value keep their
    order here; pandas leaves the order of ties to the sort kind, and no
    theorem below depends on it. *)
Fixpoint insert_by_desc (x : A) (l : list A) : list A :=
  match l with
  | [] => [x]
  | y :: ys =>
      if Qle_bool (value y) (value x) then x :: l else y :: insert_by_desc x ys
  end.

Definition sort_by_desc (l : list A) : list A := fold_right insert_by_desc [] l.

(** [sort_values(by, ascending=True)], ties as above. *)
Fixpoint insert_by_asc (x : A) (l : list A) : list A :=
  match l with
  | [] => [x]
  | y :: ys =>
      if Qle_bool (value x) (value y) then x :: l else y :: insert_by_asc x ys
  end.

Definition sort_by_asc (l : list A) : list A := fold_right insert_by_asc [] l.

(** Rows in descending (ascending) order of a column. *)
Definition Descending (l : list A) : Prop :=
  StronglySorted (fun a b => (value b <= value a)%Q) l.

Definition Ascending (l : list A) : Prop :=
  StronglySorted (fun a b => (value a <= value b)%Q) l.

(** [nlargest(n, by)]: the first [n] rows in descending order of the
    column, ties in their original order ([keep='first']). *)
Definition nlargest (n : nat) (l : list A) : list A := firstn n (sort_by_desc l).

End SortBy.

(** Text keys in ascending order. *)
Definition KeysAscending (l : list string) : Prop :=
  StronglySorted (fun a b => String.leb a b = true) l.

(** [DataFrame.head(n)]. *)
Definition head {A : Type} (n : nat) (l : list A) : list A := firstn n l.

(** *** Top customers and top states (Sales Analysis tab) *)

Record CustomerRow := {
  c_Customer_Name : string;
  c_Sales : Q;
  c_Profit : Q
}.

Definition customer_row (kg : string * DataFrame) : CustomerRow :=
  {| c_Customer_Name := fst kg;
     c_Sales := Qsum (map Sales (snd kg));
     c_Profit := Qsum (map Profit (snd kg)) |}.

Definition customer_sales (fdf : DataFrame) : list CustomerRow :=
  map customer_row (groupby String.eqb String.leb Customer_Name fdf).

Definition top_customers (fdf : DataFrame) : list CustomerRow :=
  head 10 (sort_by_desc c_Sales (customer_sales fdf)).

Definition state_metrics (fdf : DataFrame) : list (SalesProfit (K := string)) :=
  sales_profit_by String.eqb String.leb State fdf.

Definition top_5_states (fdf : DataFrame) : list (SalesProfit (K := string)) :=
  nlargest sp_Sales 5 (state_metrics fdf).

(** *** What a table of sums by one column holds *)

(** [table] has one row for each value of the column [key] that occurs in
    [fdf] and no other, in ascending order of the value; a row holds the
    sums of sales and of profit over the records with its value, and the
    margin of the two sums. *)
Definition summed_by (key : Row -> string) (fdf : DataFrame)
    (table : list (SalesProfit (K := string))) : Prop :=
  NoDup (map sp_key table) /\
  KeysAscending (map sp_key table) /\
  (forall k, In k (map sp_key table) <-> exists r, In r fdf /\ key r = k) /\
  List.length table = nunique (map key fdf) /\
  (forall row, In row table ->
     sp_Sales row
     = Qsum (map Sales (filter (fun r => String.eqb (key r) (sp_key row)) fdf)) /\
     sp_Profit row
     = Qsum (map Profit (filter (fun r => String.eqb (key r) (sp_key row)) fdf)) /\
     sp_Profit_Margin row = profit_margin (sp_Profit row) (sp_Sales row)).

(** *** Orders by ship mode (Overview tab) *)

(** [Series.mean()]: [nan] on the empty series. *)
Definition mean (l : list Q) : float64 :=
  match l with
  | [] => NaN
  | _ :: _ => Finite (Qsum l / inject_Z (Z.of_nat (List.length l)))
  end.

Record ShipModeRow := {
  s_Ship_Mode : string;
  s_Total_Orders : nat;
  s_Processing_Time : float64
}.

Definition shipmode_row (kg : string * DataFrame) : ShipModeRow :=
  {| s_Ship_Mode := fst kg;
     s_Total_Orders := nunique (map Order_ID (snd kg));
     s_Processing_Time :=
       mean (map (fun r => inject_Z (Processing_Time r)) (snd kg)) |}.

Definition shipmode_orders (fdf : DataFrame) : list ShipModeRow :=
  map shipmode_row (groupby String.eqb String.leb Ship_Mode fdf).

Definition shipmode_orders_sorted (fdf : DataFrame) : list ShipModeRow :=
  sort_by_desc (fun row => inject_Z (Z.of_nat (s_Total_Orders row)))
    (shipmode_orders fdf).

(** *** Profit by category and sub-category (Profit/Loss tab) *)

Record CatSubcatRow := {
  cs_Category : string;
  cs_Sub_Category : string;
  cs_Profit : Q;
  cs_Category_SubCategory : string
}.

(** A row of [cat_subcat_sorted]: the two key columns, the summed profit and
    the combined label. *)
Definition cat_subcat_row (kp : list string * Q) : CatSubcatRow :=
  let category := nth 0 (fst kp) EmptyString in
  let sub_category := nth 1 (fst kp) EmptyString in
  {| cs_Category := category;
     cs_Sub_Category := sub_category;
     cs_Profit := snd kp;
     cs_Category_SubCategory := (category ++ " - " ++ sub_category)%string |}.

Definition cat_subcat_sorted (fdf : DataFrame) : list CatSubcatRow :=
  map cat_subcat_row (sort_by_asc snd (cat_subcat_profit fdf)).

(** *** Loss analysis (Profit/Loss tab) *)

Definition loss_df (fdf : DataFrame) : DataFrame :=
  filter (fun r => Qltb (Profit r) 0) fdf.

Record LossRow := {
  l_key : string;
  l_Profit : Q;
  l_Losses : Q
}.

Definition loss_row (kg : string * DataFrame) : LossRow :=
  let profit := Qsum (map Profit (snd kg)) in
  {| l_key := fst kg; l_Profit := profit; l_Losses := Qabs profit |}.

Definition category_losses (ldf : DataFrame) : list LossRow :=
  sort_by_desc l_Losses
    (map loss_row (groupby String.eqb String.leb Category ldf)).

Definition state_losses (ldf : DataFrame) : list LossRow :=
  map loss_row (groupby String.eqb String.leb State ldf).

Definition top_5_loss_states (ldf : DataFrame) : list LossRow :=
  nlargest l_Losses 5 (state_losses ldf).

(** What the Loss Analysis section shows. *)
Inductive LossPanel :=
| LossCharts (by_category : list LossRow) (by_state : list LossRow)
| NoLossInfo (text : string).

Definition no_loss_text : string :=
  "No loss-making transactions found in the filtered data.".

Definition loss_analysis (fdf : DataFrame) : LossPanel :=
  if negb (empty (loss_df fdf))
  then LossCharts (category_losses (loss_df fdf)) (top_5_loss_states (loss_df fdf))
  else NoLossInfo no_loss_text.

(** ** What the loader does to a line *)

(** [row] is the line [raw] as loaded: every column but the dates is
    copied, the dates are their day numbers and the processing time is
    their difference. *)
Definition loaded_from (raw : RawRow) (row : Row) : Prop :=
  Order_ID row = raw_Order_ID raw /\
  Order_Date row = Calendar.days_from_civil (raw_Order_Date raw) /\
  Ship_Date row = Calendar.days_from_civil (raw_Ship_Date raw) /\
  Ship_Mode row = raw_Ship_Mode raw /\
  Customer_Name row = raw_Customer_Name raw /\
  Segment row = raw_Segment raw /\
  State row = raw_State raw /\
  Region row = raw_Region raw /\
  Category row = raw_Category raw /\
  Sub_Category row = raw_Sub_Category raw /\
  Sales row = raw_Sales raw /\
  Quantity row = raw_Quantity raw /\
  Discount row = raw_Discount raw /\
  Profit row = raw_Profit raw /\
  Processing_Time row = Ship_Date row - Order_Date row.

(** The order of the calendar: [a] is an earlier date than [b]. *)
Definition civil_before (a b : Calendar.Civil) : Prop :=
  Calendar.year a < Calendar.year b \/
  (Calendar.year a = Calendar.year b /\
   (Calendar.month a < Calendar.month b \/
    (Calendar.month a = Calendar.month b /\ Calendar.day a < Calendar.day b))).

Definition civil_le (a b : Calendar.Civil) : Prop := a = b \/ civil_before a b.

(** The first and the last date whose midnight a [Timestamp] holds. *)
Definition timestamp_first : Calendar.Civil :=
  {| Calendar.year := 1677; Calendar.month := 9; Calendar.day := 22 |}.

Definition timestamp_last : Calendar.Civil :=
  {| Calendar.year := 2262; Calendar.month := 4; Calendar.day := 11 |}.

Definition timestamp_holds (c : Calendar.Civil) : Prop :=
  civil_le timestamp_first c /\ civil_le c timestamp_last.

(** Both date cells of a line spell a date that a [Timestamp] holds. *)
Definition dates_parse (raw : RawRow) : bool :=
  date_parses (raw_Order_Date raw) && date_parses (raw_Ship_Date raw).

(** The two dates of a line are not too far apart for the subtraction: at
    most 106751 days. *)
Definition difference_fits (raw : RawRow) : bool :=
  in_int64 (nanoseconds (Calendar.days_from_civil (raw_Ship_Date raw))
            - nanoseconds (Calendar.days_from_civil (raw_Order_Date raw))).

(** The row made of a line. *)
Definition loaded (raw : RawRow) : Row :=
  assemble raw
    (Calendar.days_from_civil (raw_Order_Date raw))
    (Calendar.days_from_civil (raw_Ship_Date raw))
    (Calendar.days_from_civil (raw_Ship_Date raw)
     - Calendar.days_from_civil (raw_Order_Date raw)).

(** The table at the path [load_data] settles on. *)
Definition source_table (fs : FileSystem) (rows : list RawRow) : Prop :=
  fs csv_here = Some (Csv rows) \/
  (fs csv_here = None /\ fs csv_parent = Some (Csv rows)).

(** ** More scenarios *)

Module Scenario.

Local Open Scope string_scope.

(** The two rows [load_data] makes of [Sample.good_file]. *)
Definition on_time_row : Row :=
  Sample.row "CA-2023-9" (Sample.date 2023 1 1) "Furniture" "Chairs" "South" 100 20.

Definition late_row : Row :=
  {| Order_ID := "CA-2023-10";
     Order_Date := Sample.date 2023 1 5;
     Ship_Date := Sample.date 2023 1 3;
     Ship_Mode := "Standard Class";
     Customer_Name := "Claire Gute";
     Segment := "Consumer";
     State := "Kentucky";
     Region := "South";
     Category := "Furniture";
     Sub_Category := "Chairs";
     Sales := 100;
     Quantity := 1;
     Discount := 0;
     Profit := 20;
     Processing_Time := -2 |}.

(** [Sample.wide_spec] with the two dates exchanged. *)
Definition inverted_spec : FilterSpec :=
  {| start_date := Sample.date 2023 12 31;
     end_date := Sample.date 2023 1 1;
     selected_categories := ["Furniture"; "Technology"];
     selected_subcategories := ["Chairs"; "Phones"];
     selected_regions := ["South"; "West"];
     selected_states := ["Kentucky"];
     selected_ship_modes := ["Standard Class"];
     selected_segments := ["Consumer"] |}.

(** The CSV file in the current directory and something unreadable in the
    parent directory. *)
Definition good_file_and_parent : FileSystem :=
  fun p => if String.eqb p csv_here
           then Some (Csv [Sample.shipped_in_four; Sample.shipped_before_ordered])
           else if String.eqb p csv_parent then Some Unreadable
           else None.

(** A line dated 30 February. *)
Definition bad_date_line : RawRow :=
  Sample.raw "CA-2023-11" (Sample.civil 2023 2 30) (Sample.civil 2023 3 2)
    "Furniture" "Chairs" "South" 100 20.

Definition bad_date_file : FileSystem :=
  fun p => if String.eqb p csv_here
           then Some (Csv [Sample.shipped_in_four; bad_date_line])
           else None.

(** A line dated in the year 3000, and one ordered on 1677-09-21. *)
Definition far_future_line : RawRow :=
  Sample.raw "CA-3000-1" (Sample.civil 3000 1 1) (Sample.civil 3000 1 5)
    "Furniture" "Chairs" "South" 100 20.

Definition far_past_line : RawRow :=
  Sample.raw "CA-1677-1" (Sample.civil 1677 9 21) (Sample.civil 1677 9 25)
    "Furniture" "Chairs" "South" 100 20.

(** A line ordered in 1700 and shipped in 2200. *)
Definition far_apart_line : RawRow :=
  Sample.raw "CA-1700-1" (Sample.civil 1700 1 1) (Sample.civil 2200 1 1)
    "Furniture" "Chairs" "South" 100 20.

(** A row with one label in two filter columns. *)
Definition misc_row : Row :=
  Sample.row "CA-2023-17" (Sample.date 2023 7 1) "Misc" "Misc" "South" 10 1.

Definition misc_line : RawRow :=
  Sample.raw "CA-2023-17" (Sample.civil 2023 7 1) (Sample.civil 2023 7 5)
    "Misc" "Misc" "South" 10 1.

Definition misc_file : FileSystem :=
  fun p => if String.eqb p csv_here then Some (Csv [misc_line]) else None.

End Scenario.

(** * Theorems *)

(** ** Filter *)

Lemma isin_In (v : string) (values : list string) :
  isin v values = true <-> In v values.
Proof.
  unfold isin. rewrite existsb_exists. split.
  - intros [x [Hin Heq]]. apply String.eqb_eq in Heq. now subst.
  - intros Hin. exists v. split; [assumption | apply String.eqb_refl].
Qed.

Lemma mask_true (s : FilterSpec) (r : Row) :
  mask s r = true <->
  (start_date s <= Order_Date r <= end_date s) /\
  In (Category r) (selected_categories s) /\
  In (Region r) (selected_regions s) /\
  In (Ship_Mode r) (selected_ship_modes s) /\
  In (State r) (selected_states s) /\
  In (Segment r) (selected_segments s) /\
  In (Sub_Category r) (selected_subcategories s).
Proof.
  unfold mask. rewrite !andb_true_iff, !isin_In, Z.geb_le, Z.leb_le. tauto.
Qed.

Lemma mask_passes (s : FilterSpec) (r : Row) : mask s r = true <-> passes s r.
Proof.
  rewrite mask_true. unfold passes. split.
  - intros (Hd & Hc & Hr & Hm & Hst & Hsg & Hsc). split; [exact Hd |].
    intros []; assumption.
  - intros [Hd Hall]. split; [exact Hd |].
    repeat split.
    + exact (Hall DimCategory).
    + exact (Hall DimRegion).
    + exact (Hall DimShipMode).
    + exact (Hall DimState).
    + exact (Hall DimSegment).
    + exact (Hall DimSubCategory).
Qed.

Lemma filter_Selects {A} (f : A -> bool) (P : A -> Prop) (l : list A) :
  (forall x, f x = true <-> P x) -> Selects P l (filter f l).
Proof.
  intros Hf. induction l as [| x l IH]; simpl.
  - constructor.
  - destruct (f x) eqn:E.
    + apply Selects_keep; [now apply Hf | exact IH].
    + apply Selects_drop; [| exact IH].
      intros HP. apply Hf in HP. congruence.
Qed.

(** The relation determines its output: two selections of the same list by
    the same predicate are equal. *)
Lemma Selects_functional {A} (P : A -> Prop) (l a b : list A) :
  Selects P l a -> Selects P l b -> a = b.
Proof.
  intros Ha. revert b.
  induction Ha as [| x l out Hx _ IH | x l out Hx _ IH]; intros b Hb.
  - now inversion Hb.
  - inversion Hb; subst.
    + f_equal. now apply IH.
    + contradiction.
  - inversion Hb; subst.
    + contradiction.
    + now apply IH.
Qed.

Lemma Selects_Subsequence {A} (P : A -> Prop) (l out : list A) :
  Selects P l out -> Subsequence out l.
Proof.
  induction 1; now constructor.
Qed.

Lemma Selects_In {A} (P : A -> Prop) (l out : list A) :
  Selects P l out -> forall x, In x out <-> In x l /\ P x.
Proof.
  induction 1 as [| x l out Hx _ IH | x l out Hx _ IH]; intros y; simpl.
  - tauto.
  - rewrite IH. split.
    + intros [<- | [Hin Hy]]; auto.
    + intros [[<- | Hin] Hy]; auto.
  - rewrite IH. split.
    + intros [Hin Hy]; auto.
    + intros [[<- | Hin] Hy]; [contradiction | auto].
Qed.

Lemma filter_length_le {A} (f : A -> bool) (l : list A) :
  (List.length (filter f l) <= List.length l)%nat.
Proof.
  induction l as [| x l IH]; simpl; [lia |].
  destruct (f x); simpl; lia.
Qed.

Lemma filter_length_mono {A} (f g : A -> bool) (l : list A) :
  (forall x, f x = true -> g x = true) ->
  (List.length (filter f l) <= List.length (filter g l))%nat.
Proof.
  intros Hfg. induction l as [| x l IH]; simpl; [lia |].
  destruct (f x) eqn:Ef.
  - rewrite (Hfg x Ef). simpl. lia.
  - destruct (g x); simpl; lia.
Qed.

Lemma filter_all {A} (f : A -> bool) (l : list A) :
  (forall x, In x l -> f x = true) -> filter f l = l.
Proof.
  induction l as [| x l IH]; simpl; intros H; [reflexivity |].
  rewrite (H x (or_introl eq_refl)), IH; auto.
Qed.

Lemma filter_none {A} (f : A -> bool) (l : list A) :
  (forall x, In x l -> f x = false) -> filter f l = [].
Proof.
  induction l as [| x l IH]; simpl; intros H; [reflexivity |].
  rewrite (H x (or_introl eq_refl)), IH; auto.
Qed.

Lemma distinct_In {K} (eqb : K -> K -> bool) (l : list K) :
  (forall a b, eqb a b = true <-> a = b) ->
  forall x, In x (distinct eqb l) <-> In x l.
Proof.
  intros Heq. induction l as [| y l IH]; intros x; simpl; [tauto |].
  rewrite filter_In, IH. split.
  - intros [-> | [Hin _]]; auto.
  - intros [-> | Hin]; [now left |].
    destruct (eqb x y) eqn:E.
    + left. symmetry. now apply Heq.
    + right. now split.
Qed.

Lemma unique_In (l : list string) (x : string) : In x (unique l) <-> In x l.
Proof. apply distinct_In. exact String.eqb_eq. Qed.

Lemma remove_value_allowed (d d' : Dimension) (v : string) (s : FilterSpec) (x : string) :
  In x (allowed (remove_value d v s) d') -> In x (allowed s d').
Proof.
  destruct d, d'; simpl; try tauto; rewrite filter_In; tauto.
Qed.

Lemma remove_value_dates (d : Dimension) (v : string) (s : FilterSpec) :
  start_date (remove_value d v s) = start_date s /\
  end_date (remove_value d v s) = end_date s.
Proof. destruct d; split; reflexivity. Qed.

Lemma remove_value_mask (d : Dimension) (v : string) (s : FilterSpec) (r : Row) :
  mask (remove_value d v s) r = true -> mask s r = true.
Proof.
  rewrite !mask_passes. unfold passes.
  destruct (remove_value_dates d v s) as [-> ->].
  intros [Hd Hall]. split; [exact Hd |].
  intros d'. eapply remove_value_allowed. apply Hall.
Qed.

Lemma empty_allowed_mask (s : FilterSpec) (d : Dimension) (r : Row) :
  allowed s d = [] -> mask s r = false.
Proof.
  intros Hempty. destruct (mask s r) eqn:E; [| reflexivity].
  apply mask_passes in E. destruct E as [_ Hall].
  specialize (Hall d). rewrite Hempty in Hall. destruct Hall.
Qed.

(** C1. [filtered_df] keeps exactly the records whose order date lies in
    [[start_date, end_date]] (both ends included) and whose value in each
    of the six categorical dimensions is among the allowed values, each as
    often as it occurs in the input and in the input's order; so the result
    is a subsequence of the input. *)
Theorem filtered_df_exactly_passing (df : DataFrame) (s : FilterSpec) :
  Selects (passes s) df (filtered_df df s) /\
  Subsequence (filtered_df df s) df /\
  (forall r, In r (filtered_df df s) <-> In r df /\ passes s r).
Proof.
  assert (H : Selects (passes s) df (filtered_df df s))
    by (apply filter_Selects; intros r; apply mask_passes).
  split; [exact H |]. split.
  - exact (Selects_Subsequence _ _ _ H).
  - exact (Selects_In _ _ _ H).
Qed.

Lemma Zmin_list_le (l : list Z) :
  forall x, Zmin_list x l <= x /\ (forall y, In y l -> Zmin_list x l <= y).
Proof.
  unfold Zmin_list. induction l as [| a l IH]; intros x; simpl.
  - split; [lia | tauto].
  - destruct (IH (Z.min x a)) as [H1 H2]. split; [lia |].
    intros y [<- | Hy]; [lia | now apply H2].
Qed.

Lemma Zmax_list_ge (l : list Z) :
  forall x, x <= Zmax_list x l /\ (forall y, In y l -> y <= Zmax_list x l).
Proof.
  unfold Zmax_list. induction l as [| a l IH]; intros x; simpl.
  - split; [lia | tauto].
  - destruct (IH (Z.max x a)) as [H1 H2]. split; [lia |].
    intros y [<- | Hy]; [lia | now apply H2].
Qed.

(** Every order date lies between [min_date] and [max_date]. *)
Lemma order_date_bounds (first : Row) (rest : DataFrame) (r : Row) :
  In r (first :: rest) ->
  min_date first rest <= Order_Date r <= max_date first rest.
Proof.
  unfold min_date, max_date.
  destruct (Zmin_list_le (map Order_Date rest) (Order_Date first)) as [Hm1 Hm2].
  destruct (Zmax_list_ge (map Order_Date rest) (Order_Date first)) as [HM1 HM2].
  intros [<- | Hr]; [lia |].
  split; [apply Hm2 | apply HM2]; now apply in_map.
Qed.

Lemma covering_spec_identity (df : DataFrame) (s : FilterSpec) :
  (forall r, In r df -> start_date s <= Order_Date r <= end_date s) ->
  (forall d x, In x (unique (map (column d) df)) -> In x (allowed s d)) ->
  filtered_df df s = df.
Proof.
  intros Hdates Hdomain. apply filter_all. intros r Hr.
  apply mask_passes. split; [now apply Hdates |].
  intros d. apply Hdomain, unique_In, in_map, Hr.
Qed.

Lemma allowed_sidebar_spec (ui : Sidebar) (df : DataFrame) (d : Dimension) :
  allowed (sidebar_spec ui df) d = selected ui d df.
Proof. destruct d; reflexivity. Qed.

(** The sidebar as first drawn (dates at the extremes, every box checked)
    filters nothing out. *)
Lemma default_sidebar_identity (first : Row) (rest : DataFrame) :
  filtered_df (first :: rest)
    (sidebar_spec (default_sidebar first rest) (first :: rest))
  = first :: rest.
Proof.
  apply covering_spec_identity.
  - intros r Hr. apply (order_date_bounds first rest r Hr).
  - intros d x Hx. rewrite allowed_sidebar_spec. unfold selected.
    rewrite filter_all; [exact Hx | reflexivity].
Qed.

(** A dimension with every box unchecked hands the filter an empty list,
    and the dashboard is drawn from the empty table. *)
Lemma unchecked_dimension_selects_nothing (ui : Sidebar) (df : DataFrame)
    (d : Dimension) :
  (forall x, In x (unique (map (column d) df)) -> checked ui x = false) ->
  allowed (sidebar_spec ui df) d = [].
Proof.
  intros H. rewrite allowed_sidebar_spec. unfold selected.
  now apply filter_none.
Qed.

Lemma unchecked_dimension_renders_empty (ui : Sidebar) (df : DataFrame)
    (d : Dimension) :
  (forall x, In x (unique (map (column d) df)) -> checked ui x = false) ->
  render (filtered_df df (sidebar_spec ui df)) = render [] /\
  d_key_metrics (render []) = zero_metrics.
Proof.
  intros H. split; [| reflexivity].
  f_equal. apply filter_none. intros r _.
  apply (empty_allowed_mask _ d).
  now apply unchecked_dimension_selects_nothing.
Qed.

(** C6. A spec whose date interval covers every order date present and
    whose allowed values, in every categorical dimension, include every
    value present in that column leaves the record set unchanged. *)
Theorem full_spec_identity (df : DataFrame) (s : FilterSpec) :
  (forall r, In r df -> start_date s <= Order_Date r <= end_date s) ->
  (forall d x, In x (unique (map (column d) df)) -> In x (allowed s d)) ->
  filtered_df df s = df.
Proof.
  intros Hdates Hdomain. now apply covering_spec_identity.
Qed.

Lemma full_spec_identity_witness :
  filtered_df Sample.two_records Sample.wide_spec = Sample.two_records.
Proof.
  apply (full_spec_identity Sample.two_records Sample.wide_spec).
  - intros r [<- | [<- | []]]; vm_compute; split; discriminate.
  - intros [] x; simpl; tauto.
Defined.

(** C7. Removing one value from the allowed values of one dimension never
    makes the filtered subset longer, and the filtered subset is never
    longer than the input. *)
Theorem filtered_df_monotone (df : DataFrame) (s : FilterSpec)
    (d : Dimension) (v : string) :
  (List.length (filtered_df df (remove_value d v s))
     <= List.length (filtered_df df s))%nat /\
  (List.length (filtered_df df s) <= List.length df)%nat.
Proof.
  split.
  - apply filter_length_mono. intros r. apply remove_value_mask.
  - apply filter_length_le.
Qed.

(** C2. When the allowed values of some categorical dimension are empty,
    [filtered_df] is empty whatever the record set, and the key metrics of
    that empty set are total sales 0, total profit 0, total losses 0,
    0 orders and a [nan] margin; they are plain values, nothing is raised. *)
Theorem empty_dimension_empty_result (df : DataFrame) (s : FilterSpec)
    (d : Dimension) :
  allowed s d = [] ->
  filtered_df df s = [] /\ key_metrics (filtered_df df s) = zero_metrics.
Proof.
  intros Hempty.
  assert (H : filtered_df df s = []).
  { apply filter_none. intros r _. now apply (empty_allowed_mask s d). }
  split; [exact H |]. rewrite H. reflexivity.
Qed.

Lemma empty_dimension_empty_result_witness :
  filtered_df Sample.two_records Sample.no_region_spec = [] /\
  key_metrics (filtered_df Sample.two_records Sample.no_region_spec) = zero_metrics.
Proof.
  apply (empty_dimension_empty_result Sample.two_records Sample.no_region_spec DimRegion).
  reflexivity.
Defined.

(** ** Key metrics *)

Lemma Qltb_lt (x y : Q) : Qltb x y = true <-> (x < y)%Q.
Proof.
  unfold Qltb. rewrite negb_true_iff, <- not_true_iff_false, Qle_bool_iff.
  split; [apply Qnot_le_lt | apply Qlt_not_le].
Qed.

Lemma is_zero_true (q : Q) : is_zero q = true <-> (q == 0)%Q.
Proof. apply Qeq_bool_iff. Qed.

Lemma is_zero_false (q : Q) : is_zero q = false <-> ~ (q == 0)%Q.
Proof. rewrite <- is_zero_true. symmetry. apply not_true_iff_false. Qed.

Lemma Qsum_nonpos (l : list Q) :
  (forall x, In x l -> (x <= 0)%Q) -> (Qsum l <= 0)%Q.
Proof.
  induction l as [| x l IH]; simpl; intros H.
  - apply Qle_refl.
  - assert (Hx : (x <= 0)%Q) by (apply H; now left).
    assert (Hl : (Qsum l <= 0)%Q) by (apply IH; intros y Hy; apply H; now right).
    lra.
Qed.

Lemma Qabs_Qsum_nonpos (l : list Q) :
  (forall x, In x l -> (x <= 0)%Q) ->
  (Qabs (Qsum l) == Qsum (map Qabs l))%Q.
Proof.
  intros H. rewrite Qabs_neg by now apply Qsum_nonpos.
  induction l as [| x l IH]; simpl.
  - reflexivity.
  - rewrite Qabs_neg by (apply H; now left).
    rewrite <- IH by (intros y Hy; apply H; now right).
    ring.
Qed.

Lemma filter_map_comm {A B} (f : A -> B) (p : B -> bool) (l : list A) :
  filter p (map f l) = map f (filter (fun a => p (f a)) l).
Proof.
  induction l as [| a l IH]; simpl; [reflexivity |].
  destruct (p (f a)); simpl; now rewrite IH.
Qed.

Lemma total_losses_spec (fdf : DataFrame) :
  (total_losses fdf == losses_spec fdf)%Q.
Proof.
  unfold total_losses, losses_spec. rewrite filter_map_comm.
  apply Qabs_Qsum_nonpos. intros x Hx.
  apply in_map_iff in Hx. destruct Hx as [r [<- Hr]].
  apply filter_In in Hr. destruct Hr as [_ Hneg].
  apply Qltb_lt in Hneg. now apply Qlt_le_weak.
Qed.

Lemma distinct_NoDup {K} (eqb : K -> K -> bool) (l : list K) :
  (forall a b, eqb a b = true <-> a = b) -> NoDup (distinct eqb l).
Proof.
  intros Heq. induction l as [| x l IH]; simpl.
  - constructor.
  - constructor.
    + rewrite filter_In. intros [_ Hx].
      rewrite negb_true_iff in Hx.
      assert (eqb x x = true) by now apply Heq. congruence.
    + now apply NoDup_filter.
Qed.

Lemma total_orders_spec (fdf : DataFrame) :
  counts_distinct (map Order_ID fdf) (total_orders fdf).
Proof.
  exists (unique (map Order_ID fdf)). split; [| split].
  - apply distinct_NoDup. exact String.eqb_eq.
  - intros x. apply unique_In.
  - reflexivity.
Qed.

Lemma profit_margin_finite (profit sales : Q) :
  ~ (sales == 0)%Q ->
  profit_margin profit sales = Finite (profit / sales * 100)%Q.
Proof.
  intros Hs. unfold profit_margin. simpl.
  apply is_zero_false in Hs. now rewrite Hs.
Qed.

(** C4. The key metrics of any record set are: total sales, the sum of
    sales; total profit, the sum of profit; the margin, total profit
    divided by total sales times 100 (where total sales is not zero); total
    losses, the sum of the absolute values of the negative profits; total
    orders, the number of distinct order ids.  For two records with sales
    100 and 50 and profit 20 and -10 they are 150, 10, a margin of 20/3
    (6.67 to two decimals) and losses of 10. *)
Theorem key_metrics_formulas (fdf : DataFrame) :
  (totalSales (key_metrics fdf) = Qsum (map Sales fdf) /\
   totalProfit (key_metrics fdf) = Qsum (map Profit fdf) /\
   (~ (Qsum (map Sales fdf) == 0)%Q ->
    avgMarginPct (key_metrics fdf)
    = Finite (Qsum (map Profit fdf) / Qsum (map Sales fdf) * 100)%Q) /\
   (totalLosses (key_metrics fdf) == losses_spec fdf)%Q /\
   counts_distinct (map Order_ID fdf) (totalOrders (key_metrics fdf))) /\
  ((totalSales (key_metrics Sample.two_records) == 150)%Q /\
   (totalProfit (key_metrics Sample.two_records) == 10)%Q /\
   (totalLosses (key_metrics Sample.two_records) == 10)%Q /\
   exists q, avgMarginPct (key_metrics Sample.two_records) = Finite q /\
             (q == 20 # 3)%Q /\ (6665 # 1000 <= q < 6675 # 1000)%Q).
Proof.
  split.
  - split; [reflexivity |]. split; [reflexivity |]. split; [| split].
    + apply profit_margin_finite.
    + apply total_losses_spec.
    + apply total_orders_spec.
  - split; [now vm_compute |]. split; [now vm_compute |].
    split; [now vm_compute |].
    eexists. split; [reflexivity |]. split; [now vm_compute |].
    split; [vm_compute; discriminate | now vm_compute].
Qed.

(** ** Zero denominators *)

Lemma profit_margin_zero_sales (profit sales : Q) :
  (sales == 0)%Q -> profit_margin profit sales = zero_division profit.
Proof.
  intros Hs. unfold profit_margin, zero_division. simpl.
  apply is_zero_true in Hs. rewrite Hs.
  destruct (is_zero profit); [reflexivity |].
  destruct (Qltb profit 0); reflexivity.
Qed.

Lemma zero_division_cases (profit : Q) :
  (zero_division profit = NaN <-> (profit == 0)%Q) /\
  (zero_division profit = PosInf <-> (0 < profit)%Q) /\
  (zero_division profit = NegInf <-> (profit < 0)%Q) /\
  is_finite (zero_division profit) = false.
Proof.
  unfold zero_division.
  destruct (is_zero profit) eqn:Ez.
  - apply is_zero_true in Ez.
    repeat split; try discriminate; try reflexivity; try (intros _; exact Ez);
      intros H; rewrite Ez in H; now apply Qlt_irrefl in H.
  - apply is_zero_false in Ez.
    destruct (Qltb profit 0) eqn:El; simpl.
    + apply Qltb_lt in El.
      repeat split; try discriminate; try reflexivity; try (intros _; exact El);
        intros H; exfalso; lra.
    + assert (Hge : ~ (profit < 0)%Q)
        by (intros H; apply Qltb_lt in H; congruence).
      repeat split; try discriminate; try reflexivity;
        try (intros _; lra); intros H; exfalso; lra.
Qed.

Lemma in_sales_profit_by {K} (eqb leb : K -> K -> bool) (key : Row -> K)
    (df : DataFrame) (row : SalesProfit) :
  In row (sales_profit_by eqb leb key df) ->
  sp_Profit_Margin row = profit_margin (sp_Profit row) (sp_Sales row).
Proof.
  unfold sales_profit_by. rewrite in_map_iff.
  intros [kg [<- _]]. reflexivity.
Qed.

Lemma zero_denominator_margin (profit sales : Q) :
  (sales == 0)%Q -> zero_denominator_result profit (profit_margin profit sales).
Proof.
  intros Hs. unfold zero_denominator_result.
  rewrite (profit_margin_zero_sales profit sales Hs).
  split; [reflexivity | apply zero_division_cases].
Qed.

(** C5, as the code has it. When the summed sales of a record set is zero,
    the margin computed from the summed totals is a non-finite float64:
    [nan] when the summed profit is zero too, [inf] when it is positive and
    [-inf] when it is negative.  Nothing is raised and the result is never
    a finite number, so never zero.  The same holds for the margin of every
    row of a grouped table whose own summed sales is zero, whatever the
    sales of the other rows: the giveaway next to two records with sales
    has margin [-inf] in its category row. *)
Theorem zero_sales_margin (fdf : DataFrame) :
  ((total_sales fdf == 0)%Q ->
   zero_denominator_result (total_profit fdf) (average_profit_margin fdf)) /\
  (forall (K : Type) (eqb leb : K -> K -> bool) (key : Row -> K) row,
      In row (sales_profit_by eqb leb key fdf) ->
      (sp_Sales row == 0)%Q ->
      zero_denominator_result (sp_Profit row) (sp_Profit_Margin row)) /\
  (total_sales (Sample.giveaway ++ Sample.two_records) == 150)%Q /\
  (exists row,
      In row (category_sales (Sample.giveaway ++ Sample.two_records)) /\
      (sp_Sales row == 0)%Q /\
      sp_Profit_Margin row = NegInf).
Proof.
  split; [| split; [| split]].
  - intros Hzero. now apply zero_denominator_margin.
  - intros K eqb leb key row Hin Hs.
    rewrite (in_sales_profit_by eqb leb key fdf row Hin).
    now apply zero_denominator_margin.
  - now vm_compute.
  - eexists. split; [right; left; reflexivity |].
    split; [now vm_compute | reflexivity].
Qed.

(** C5, as the specification words it, fails: a record set with sales 0
    and profit -5 has summed sales zero, and both the margin of the key
    metrics and the margin of its category row are [-inf], not [nan]. *)
Lemma zero_sales_margin_not_nan :
  (total_sales Sample.giveaway == 0)%Q /\
  average_profit_margin Sample.giveaway = NegInf /\
  average_profit_margin Sample.giveaway <> NaN /\
  (exists row, In row (category_sales Sample.giveaway) /\
               (sp_Sales row == 0)%Q /\
               sp_Profit_Margin row = NegInf /\
               sp_Profit_Margin row <> NaN).
Proof.
  split; [now vm_compute |]. split; [reflexivity |].
  split; [discriminate |].
  eexists. split; [left; reflexivity |].
  split; [now vm_compute |]. split; [reflexivity | discriminate].
Qed.

Module Binary64Facts.
Import Floats.

(** On binary64 the same expression has the same special values, and the
    margin of the worked scenario (profit 10 over sales 150) is finite and
    lies between 6.66 and 6.67 (each read as the nearest binary64). *)
#[warnings="-inexact-float"]
Lemma margin_special_values :
  Binary64.kind (Binary64.margin 0 0) = float64_kind (profit_margin 0 0) /\
  Binary64.kind (Binary64.margin 5 0) = float64_kind (profit_margin 5 0) /\
  Binary64.kind (Binary64.margin (-5) 0) = float64_kind (profit_margin (-5) 0) /\
  Binary64.kind (Binary64.margin 10 150) = float64_kind (profit_margin 10 150) /\
  Binary64.strictly_between 6.66 (Binary64.margin 10 150) 6.67 = true.
Proof. repeat split; reflexivity. Qed.

End Binary64Facts.

(** ** Keys and groups *)

Lemma filter_filter_comm {A} (p q : A -> bool) (l : list A) :
  filter p (filter q l) = filter (fun a => q a && p a) l.
Proof.
  induction l as [| a l IH]; simpl; [reflexivity |].
  destruct (q a); simpl; [destruct (p a) |]; now rewrite IH.
Qed.

Section KeysAndGroups.

Context {K : Type} (eqb leb : K -> K -> bool).
Hypothesis eqb_eq : forall a b, eqb a b = true <-> a = b.

Variable key : Row -> K.

Lemma insert_key_Permutation (k : K) (l : list K) :
  Permutation (insert_key leb k l) (k :: l).
Proof.
  induction l as [| x l IH]; simpl; [reflexivity |].
  destruct (leb k x); [reflexivity |].
  rewrite IH. apply perm_swap.
Qed.

Lemma sort_keys_Permutation (l : list K) : Permutation (sort_keys leb l) l.
Proof.
  induction l as [| x l IH]; simpl; [reflexivity |].
  rewrite insert_key_Permutation. now constructor.
Qed.

(** Dropping the rows of key [k] leaves the groups of the other keys as
    they were. *)
Lemma group_without (df : DataFrame) (k k' : K) :
  k' <> k ->
  group eqb key (filter (fun r => negb (eqb (key r) k)) df) k'
  = group eqb key df k'.
Proof.
  intros Hne. unfold group. rewrite filter_filter_comm.
  apply filter_ext. intros r.
  destruct (eqb (key r) k') eqn:E'; [| now rewrite andb_false_r].
  apply eqb_eq in E'. rewrite andb_true_r, negb_true_iff.
  apply not_true_iff_false. rewrite eqb_eq. congruence.
Qed.

End KeysAndGroups.

Lemma keys_eqb_eq (a b : list string) : keys_eqb a b = true <-> a = b.
Proof.
  revert b. induction a as [| x a IH]; intros [| y b]; simpl;
    try (split; [discriminate | discriminate]); [tauto |].
  rewrite andb_true_iff, String.eqb_eq, IH. split.
  - intros [-> ->]. reflexivity.
  - intros H. inversion H. auto.
Qed.

(** ** Loader *)

Lemma date_parses_valid (c : Calendar.Civil) :
  date_parses c = true -> Calendar.valid c = true.
Proof.
  unfold date_parses. intros H. apply andb_true_iff in H. tauto.
Qed.

Lemma traverse_if {A B} (f : A -> Outcome B) (p : A -> bool) (g : A -> B)
    (e : Exception) :
  (forall a, f a = if p a then Ok (g a) else Raise e) ->
  forall l, traverse f l = if forallb p l then Ok (map g l) else Raise e.
Proof.
  intros Hf. induction l as [| a l IH]; [reflexivity |].
  cbn [traverse forallb map]. rewrite Hf, IH.
  destruct (p a), (forallb p l); reflexivity.
Qed.

Lemma traverse_map {A B C} (h : A -> B) (f : B -> Outcome C) (l : list A) :
  traverse f (map h l) = traverse (fun a => f (h a)) l.
Proof.
  induction l as [| a l IH]; [reflexivity |].
  cbn [traverse map]. now rewrite IH.
Qed.

Lemma combine_map_map {A B C} (f : A -> B) (g : A -> C) (l : list A) :
  combine (map f l) (map g l) = map (fun a => (f a, g a)) l.
Proof.
  induction l as [| a l IH]; [reflexivity |]. cbn [map combine]. now rewrite IH.
Qed.

Lemma combine_map_r {A C} (g : A -> C) (l : list A) :
  combine l (map g l) = map (fun a => (a, g a)) l.
Proof.
  induction l as [| a l IH]; [reflexivity |]. cbn [map combine]. now rewrite IH.
Qed.

Lemma forallb_andb {A} (p q : A -> bool) (l : list A) :
  forallb (fun a => p a && q a) l = forallb p l && forallb q l.
Proof.
  induction l as [| a l IH]; [reflexivity |]. cbn [forallb]. rewrite IH.
  destruct (p a), (q a), (forallb p l); reflexivity.
Qed.

(** One line: the first failing step decides. *)
Lemma load_row_eq (raw : RawRow) :
  load_row raw
  = if date_parses (raw_Order_Date raw)
    then if date_parses (raw_Ship_Date raw)
         then if difference_fits raw then Ok (loaded raw)
              else Raise TimedeltaOverflow
         else Raise DateParseError
    else Raise DateParseError.
Proof.
  unfold load_row, to_datetime, timedelta_days, difference_fits, loaded.
  destruct (date_parses (raw_Order_Date raw)); cbn [bind]; [| reflexivity].
  destruct (date_parses (raw_Ship_Date raw)); cbn [bind]; [| reflexivity].
  destruct (in_int64 _); reflexivity.
Qed.

(** The table: the first failing column decides. *)
Lemma load_columns_eq (rows : list RawRow) :
  load_columns rows
  = if forallb (fun r => date_parses (raw_Order_Date r)) rows
    then if forallb (fun r => date_parses (raw_Ship_Date r)) rows
         then if forallb difference_fits rows then Ok (map loaded rows)
              else Raise TimedeltaOverflow
         else Raise DateParseError
    else Raise DateParseError.
Proof.
  unfold load_columns.
  rewrite (traverse_map raw_Order_Date), (traverse_map raw_Ship_Date).
  rewrite (traverse_if (fun r => to_datetime (raw_Order_Date r))
             (fun r => date_parses (raw_Order_Date r))
             (fun r => Calendar.days_from_civil (raw_Order_Date r))
             DateParseError) by reflexivity.
  destruct (forallb (fun r => date_parses (raw_Order_Date r)) rows);
    cbn [bind]; [| reflexivity].
  rewrite (traverse_if (fun r => to_datetime (raw_Ship_Date r))
             (fun r => date_parses (raw_Ship_Date r))
             (fun r => Calendar.days_from_civil (raw_Ship_Date r))
             DateParseError) by reflexivity.
  destruct (forallb (fun r => date_parses (raw_Ship_Date r)) rows);
    cbn [bind]; [| reflexivity].
  rewrite combine_map_map, traverse_map. cbn [fst snd].
  rewrite (traverse_if _ difference_fits
             (fun r => Calendar.days_from_civil (raw_Ship_Date r)
                       - Calendar.days_from_civil (raw_Order_Date r))
             TimedeltaOverflow) by reflexivity.
  destruct (forallb difference_fits rows); cbn [bind]; [| reflexivity].
  rewrite !combine_map_map, combine_map_r, map_map. reflexivity.
Qed.

Lemma load_row_loaded (raw : RawRow) (row : Row) :
  load_row raw = Ok row <->
  date_parses (raw_Order_Date raw) = true /\
  date_parses (raw_Ship_Date raw) = true /\
  difference_fits raw = true /\
  row = loaded raw.
Proof.
  rewrite load_row_eq.
  destruct (date_parses (raw_Order_Date raw));
    [| split; [discriminate | intros [H _]; discriminate]].
  destruct (date_parses (raw_Ship_Date raw));
    [| split; [discriminate | intros (_ & H & _); discriminate]].
  destruct (difference_fits raw);
    [| split; [discriminate | intros (_ & _ & H & _); discriminate]].
  split.
  - intros H. injection H as <-. auto.
  - intros (_ & _ & _ & ->). reflexivity.
Qed.



(** A table loads exactly when each of its lines does, and then the rows
    are those of the lines, in order. *)
Lemma load_columns_Ok (rows : list RawRow) (df : DataFrame) :
  load_columns rows = Ok df <->
  (forall raw, In raw rows -> load_row raw = Ok (loaded raw)) /\
  df = map loaded rows.
Proof.
  rewrite load_columns_eq. split.
  - destruct (forallb (fun r => date_parses (raw_Order_Date r)) rows) eqn:Eo;
      [| discriminate].
    destruct (forallb (fun r => date_parses (raw_Ship_Date r)) rows) eqn:Es;
      [| discriminate].
    destruct (forallb difference_fits rows) eqn:Ed; [| discriminate].
    intros H. injection H as <-. split; [| reflexivity].
    intros raw Hraw. apply load_row_loaded.
    rewrite forallb_forall in Eo, Es, Ed. auto.
  - intros [Hall ->].
    assert (Eo : forallb (fun r => date_parses (raw_Order_Date r)) rows = true).
    { apply forallb_forall. intros raw Hraw.
      now apply Hall, load_row_loaded in Hraw. }
    assert (Es : forallb (fun r => date_parses (raw_Ship_Date r)) rows = true).
    { apply forallb_forall. intros raw Hraw.
      now apply Hall, load_row_loaded in Hraw. }
    assert (Ed : forallb difference_fits rows = true).
    { apply forallb_forall. intros raw Hraw.
      now apply Hall, load_row_loaded in Hraw. }
    now rewrite Eo, Es, Ed.
Qed.


Lemma path_exists_None (fs : FileSystem) (p : string) :
  fs p = None -> path_exists fs p = false.
Proof. unfold path_exists. now intros ->. Qed.

Lemma load_data_missing (fs : FileSystem) :
  source_missing fs -> load_data fs = ([not_found_message], Ok []).
Proof.
  intros [Hhere Hparent]. unfold load_data.
  now rewrite (path_exists_None fs csv_here Hhere),
              (path_exists_None fs csv_parent Hparent).
Qed.

Lemma load_data_unreadable (fs : FileSystem) :
  source_unreadable fs -> load_data fs = ([], Raise ReadError).
Proof.
  unfold load_data, load_from, read_csv, path_exists.
  intros [Hhere | [Hhere Hparent]].
  - now rewrite Hhere.
  - now rewrite Hhere, Hparent.
Qed.

(** C10, as the code has it. When neither path holds the file, [load_data]
    shows an error and returns the empty table, raising nothing; the
    emptiness check that follows shows a second error and stops the script.
    When the file is there but cannot be read, the read error leaves
    [load_data] and ends the run.  Either way the run ends before the
    filter and the aggregations. *)
Theorem bad_source_halts (fs : FileSystem) (ui : Sidebar) :
  source_missing fs \/ source_unreadable fs ->
  (source_missing fs ->
   load_data fs = ([not_found_message], Ok []) /\
   script fs ui = Stopped [not_found_message; failed_message]) /\
  (source_unreadable fs ->
   load_data fs = ([], Raise ReadError) /\
   script fs ui = Crashed [] ReadError) /\
  halted_before_filtering (script fs ui).
Proof.
  intros Hbad.
  assert (Hm : source_missing fs ->
               load_data fs = ([not_found_message], Ok []) /\
               script fs ui = Stopped [not_found_message; failed_message]).
  { intros H. pose proof (load_data_missing fs H) as Hl.
    split; [exact Hl |]. unfold script. now rewrite Hl. }
  assert (Hu : source_unreadable fs ->
               load_data fs = ([], Raise ReadError) /\
               script fs ui = Crashed [] ReadError).
  { intros H. pose proof (load_data_unreadable fs H) as Hl.
    split; [exact Hl |]. unfold script. now rewrite Hl. }
  split; [exact Hm |]. split; [exact Hu |].
  destruct Hbad as [H | H].
  - destruct (Hm H) as [_ ->]. exact I.
  - destruct (Hu H) as [_ ->]. exact I.
Qed.

Lemma bad_source_halts_witness :
  (source_missing Sample.no_file ->
   load_data Sample.no_file = ([not_found_message], Ok []) /\
   script Sample.no_file Sample.all_checked
   = Stopped [not_found_message; failed_message]) /\
  (source_unreadable Sample.no_file ->
   load_data Sample.no_file = ([], Raise ReadError) /\
   script Sample.no_file Sample.all_checked = Crashed [] ReadError) /\
  halted_before_filtering (script Sample.no_file Sample.all_checked).
Proof.
  apply (bad_source_halts Sample.no_file Sample.all_checked).
  left. split; reflexivity.
Defined.

(** C10, as the specification words it, fails: with no file at either
    path the loader does not fail; it returns the empty table (after
    showing a message), and it is the caller that stops. *)
Lemma missing_source_load_returns :
  source_missing Sample.no_file /\
  snd (load_data Sample.no_file) = Ok [] /\
  (forall e, snd (load_data Sample.no_file) <> Raise e).
Proof.
  split; [split; reflexivity |]. split; [reflexivity |].
  intros e. discriminate.
Qed.

(** With a file that cannot be read the run ends on the read error; with a
    good file the dashboard is drawn. *)
Lemma unreadable_source_crashes :
  source_unreadable Sample.unreadable_file /\
  script Sample.unreadable_file Sample.all_checked = Crashed [] ReadError.
Proof. split; [left |]; reflexivity. Qed.

Lemma good_source_renders :
  exists df, load_data Sample.good_file = ([], Ok df) /\
             script Sample.good_file Sample.all_checked
             = Rendered [] (render df).
Proof. eexists. split; reflexivity. Qed.

(** ** Calendar *)

Module CalendarFacts.
Import Calendar.

Lemma all_below_spec (depth : nat) (bound : Z) (f : Z -> bool) :
  forall lo, all_below depth bound f lo = true ->
  forall i, lo <= i < lo + 2 ^ Z.of_nat depth -> i < bound -> f i = true.
Proof.
  induction depth as [| d IH]; intros lo H i Hi Hb.
  - simpl in H, Hi. assert (i = lo) by lia. subst i.
    apply orb_true_iff in H. destruct H as [H | H]; [| exact H].
    apply Z.leb_le in H. lia.
  - cbn [all_below] in H. apply andb_true_iff in H. destruct H as [H1 H2].
    rewrite Nat2Z.inj_succ, Z.pow_succ_r in Hi by lia.
    destruct (Z_lt_ge_dec i (lo + 2 ^ Z.of_nat d)).
    + apply (IH lo H1); lia.
    + apply (IH _ H2); lia.
Qed.

Lemma civil_of_era_shift (era doe : Z) :
  civil_of_era era doe = add_years (400 * era) (civil_of_era 0 doe).
Proof.
  unfold civil_of_era, add_years. cbv zeta. cbn [year month day].
  match goal with |- context [if ?b then _ else _] => destruct b end;
    f_equal; lia.
Qed.

(** The fields of day [doe] of an era, with their ranges. *)
Ltac era_fields doe yoe doy mp :=
  set (yoe := (doe - doe / 1460 + doe / 36524 - doe / 146096) / 365);
  set (doy := doe - (365 * yoe + yoe / 4 - yoe / 100));
  set (mp := (5 * doy + 2) / 153);
  assert (0 <= yoe <= 399) by (unfold yoe; Z.div_mod_to_equations; lia);
  assert (0 <= doy <= 365) by (unfold doy, yoe; Z.div_mod_to_equations; lia);
  assert (0 <= mp <= 11) by (unfold mp; Z.div_mod_to_equations; lia).

(** Day [doe] of era 0 converts back to its day number. *)
Lemma era_roundtrip (doe : Z) :
  0 <= doe < 146097 ->
  days_from_civil (civil_of_era 0 doe) = doe - 719468.
Proof.
  intros H. unfold days_from_civil, civil_of_era. cbv zeta. cbn [year month day].
  era_fields doe yoe doy mp.
  destruct (Z.ltb_spec mp 10) as [Hlt | Hge].
  - replace (mp + 3 <=? 2) with false by (symmetry; apply Z.leb_gt; lia).
    replace (mp + 3 >? 2) with true
      by (symmetry; rewrite Z.gtb_ltb; apply Z.ltb_lt; lia).
    replace (yoe + 0 * 400) with yoe by ring.
    replace (yoe / 400) with 0 by (symmetry; apply Z.div_small; lia).
    replace (mp + 3 - 3) with mp by ring.
    unfold doy. Z.div_mod_to_equations. lia.
  - replace (mp - 9 <=? 2) with true by (symmetry; apply Z.leb_le; lia).
    replace (mp - 9 >? 2) with false
      by (symmetry; rewrite Z.gtb_ltb; apply Z.ltb_ge; lia).
    replace (yoe + 0 * 400 + 1 - 1) with yoe by ring.
    replace (yoe / 400) with 0 by (symmetry; apply Z.div_small; lia).
    replace (mp - 9 + 9) with mp by ring.
    unfold doy. Z.div_mod_to_equations. lia.
Qed.

(** Day [doe] of era 0 is a date of the calendar. *)
Lemma era_valid (doe : Z) :
  0 <= doe < 146097 -> valid (civil_of_era 0 doe) = true.
Proof.
  intros H. unfold valid, civil_of_era. cbv zeta. cbn [year month day].
  era_fields doe yoe doy mp.
  set (d := doy - (153 * mp + 2) / 5 + 1).
  assert (Hd : 1 <= d) by (unfold d, mp; Z.div_mod_to_equations; lia).
  assert (Hlen : mp <= 10 -> d <= (153 * (mp + 1) + 2) / 5 - (153 * mp + 2) / 5)
    by (unfold d, mp; Z.div_mod_to_equations; lia).
  assert (Hfeb : mp = 11 -> d <= 29) by (unfold d, mp; Z.div_mod_to_equations; lia).
  assert (Hcommon : mp = 11 -> is_leap (yoe + 1) = false -> d <= 28).
  { unfold is_leap. intros Hm Hleap.
    rewrite orb_false_iff, andb_false_iff, negb_false_iff, !Z.eqb_neq, Z.eqb_eq
      in Hleap.
    unfold d, doy, yoe in *. Z.div_mod_to_equations. lia. }
  replace (yoe + 0 * 400) with yoe by ring.
  clearbody d mp doy yoe.
  rewrite !andb_true_iff, !Z.leb_le. unfold days_in_month.
  destruct (Z.ltb_spec mp 10) as [Hlt | Hge].
  - destruct (Z.leb_spec (mp + 3) 2); [lia |].
    specialize (Hlen ltac:(lia)).
    repeat match goal with
           | |- context [?a =? ?b] => destruct (Z.eqb_spec a b)
           end; cbn [orb]; Z.div_mod_to_equations; lia.
  - destruct (Z.leb_spec (mp - 9) 2); [| lia].
    repeat match goal with
           | |- context [?a =? ?b] => destruct (Z.eqb_spec a b)
           end; cbn [orb]; try (Z.div_mod_to_equations; lia).
    assert (mp = 11) by lia.
    destruct (is_leap (yoe + 1)).
    + specialize (Hfeb ltac:(assumption)). lia.
    + specialize (Hcommon ltac:(assumption) eq_refl). lia.
Qed.

(** Within an era the month index never decreases, and it spans 4800
    months from March of the era's first year. *)
Lemma era_month_monotone (a b : Z) :
  0 <= a <= b -> b < 146097 ->
  2 <= civil_month_index (civil_of_era 0 a)
  <= civil_month_index (civil_of_era 0 b) /\
  civil_month_index (civil_of_era 0 b) <= 4801.
Proof.
  intros H Hb. unfold civil_month_index, civil_of_era. cbv zeta.
  cbn [year month day].
  era_fields a ya da ma. era_fields b yb db mb.
  assert (Hy : ya <= yb) by (unfold ya, yb; Z.div_mod_to_equations; lia).
  assert (Hm : ya = yb -> ma <= mb)
    by (unfold ma, mb, da, db, ya, yb; Z.div_mod_to_equations; lia).
  destruct (Z.ltb_spec ma 10), (Z.ltb_spec mb 10);
    repeat match goal with
           | |- context [?x <=? 2] => destruct (Z.leb_spec x 2); try lia
           end.
Qed.

(** Era and day of era of a day number. *)
Lemma civil_from_days_era (z : Z) :
  let e := (z + 719468) / 146097 in
  let doe := (z + 719468) mod 146097 in
  0 <= doe < 146097 /\
  z = doe - 719468 + 146097 * e /\
  civil_from_days z = add_years (400 * e) (civil_of_era 0 doe).
Proof.
  intros e doe.
  pose proof (Z.mod_pos_bound (z + 719468) 146097 ltac:(lia)) as Hb.
  pose proof (Z.div_mod (z + 719468) 146097 ltac:(lia)) as Hdm.
  fold e doe in Hb, Hdm.
  split; [exact Hb |]. split; [lia |].
  unfold civil_from_days. cbv zeta. fold e.
  replace (z + 719468 - e * 146097) with doe by lia.
  apply civil_of_era_shift.
Qed.

Lemma is_leap_period (y k : Z) : is_leap (y + 400 * k) = is_leap y.
Proof.
  unfold is_leap.
  replace ((y + 400 * k) mod 4) with (y mod 4)
    by (replace (y + 400 * k) with (y + (100 * k) * 4) by ring;
        now rewrite Z.mod_add).
  replace ((y + 400 * k) mod 100) with (y mod 100)
    by (replace (y + 400 * k) with (y + (4 * k) * 100) by ring;
        now rewrite Z.mod_add).
  replace ((y + 400 * k) mod 400) with (y mod 400)
    by (replace (y + 400 * k) with (y + k * 400) by ring;
        now rewrite Z.mod_add).
  reflexivity.
Qed.

Lemma valid_period (k : Z) (c : Civil) :
  valid (add_years (400 * k) c) = valid c.
Proof.
  unfold valid, add_years, days_in_month. cbn [year month day].
  now rewrite is_leap_period.
Qed.

Lemma days_from_civil_period (k : Z) (c : Civil) :
  days_from_civil (add_years (400 * k) c) = days_from_civil c + 146097 * k.
Proof.
  unfold days_from_civil, add_years. cbv zeta. cbn [year month day].
  set (y := if month c <=? 2 then year c - 1 else year c).
  replace (if month c <=? 2 then year c + 400 * k - 1 else year c + 400 * k)
    with (y + k * 400) by (unfold y; destruct (month c <=? 2); ring).
  rewrite Z.div_add by lia.
  set (e := y / 400).
  replace (y + k * 400 - (e + k) * 400) with (y - e * 400) by ring.
  ring.
Qed.

Lemma civil_month_index_period (k : Z) (c : Civil) :
  civil_month_index (add_years (400 * k) c) = civil_month_index c + 4800 * k.
Proof. unfold civil_month_index, add_years. cbn [year month day]. ring. Qed.

Lemma months_checked : all_below 13 4800 check_month 0 = true.
Proof. vm_cast_no_check (eq_refl true). Qed.

Lemma check_month_holds (mi : Z) : 0 <= mi < 4800 -> check_month mi = true.
Proof.
  intros H. apply (all_below_spec 13 4800 check_month 0 months_checked); simpl; lia.
Qed.

Lemma check_month_eq (mi : Z) :
  check_month mi
  = (month_index (month_start mi) =? mi) &&
    (month_index (month_start mi - 1) =? mi - 1).
Proof. reflexivity. Qed.

(** Every day number is a valid civil date, and converting that date back
    gives the day number. *)
Lemma civil_from_days_valid (z : Z) : valid (civil_from_days z) = true.
Proof.
  destruct (civil_from_days_era z) as (Hb & _ & ->).
  rewrite valid_period. now apply era_valid.
Qed.

Lemma days_from_civil_from_days (z : Z) :
  days_from_civil (civil_from_days z) = z.
Proof.
  destruct (civil_from_days_era z) as (Hb & Hz & ->).
  rewrite days_from_civil_period, (era_roundtrip _ Hb). lia.
Qed.

(** A later day is never in an earlier month. *)
Lemma month_index_monotone (z z' : Z) :
  z <= z' -> month_index z <= month_index z'.
Proof.
  intros Hle. unfold month_index.
  destruct (civil_from_days_era z) as (Hb & Hz & ->).
  destruct (civil_from_days_era z') as (Hb' & Hz' & ->).
  set (e := (z + 719468) / 146097) in *.
  set (doe := (z + 719468) mod 146097) in *.
  set (e' := (z' + 719468) / 146097) in *.
  set (doe' := (z' + 719468) mod 146097) in *.
  rewrite !civil_month_index_period.
  assert (He : e <= e') by (apply Z.div_le_mono; lia).
  destruct (Z.eq_dec e e') as [Heq | Hne].
  - pose proof (era_month_monotone doe doe' ltac:(lia) ltac:(lia)). lia.
  - pose proof (era_month_monotone doe doe ltac:(lia) ltac:(lia)).
    pose proof (era_month_monotone doe' doe' ltac:(lia) ltac:(lia)). lia.
Qed.

Lemma month_index_period (z k : Z) :
  month_index (z + 146097 * k) = month_index z + 4800 * k.
Proof.
  unfold month_index, civil_from_days. cbv zeta.
  replace (z + 146097 * k + 719468) with (z + 719468 + k * 146097) by ring.
  rewrite Z.div_add by lia.
  set (e := (z + 719468) / 146097).
  replace (z + 719468 + k * 146097 - (e + k) * 146097)
    with (z + 719468 - e * 146097) by ring.
  rewrite (civil_of_era_shift (e + k)), (civil_of_era_shift e).
  rewrite !civil_month_index_period. ring.
Qed.

Lemma month_start_period (mi k : Z) :
  month_start (mi + 4800 * k) = month_start mi + 146097 * k.
Proof.
  unfold month_start.
  replace (mi + 4800 * k) with (mi + (400 * k) * 12) by ring.
  rewrite Z.div_add, Z.mod_add by lia.
  apply (days_from_civil_period k
           {| year := mi / 12; month := mi mod 12 + 1; day := 1 |}).
Qed.

(** The first day of month [mi] has month index [mi], and the day before
    has [mi - 1]. *)
Lemma month_start_first_day_era (r q : Z) :
  0 <= r < 4800 ->
  month_index (month_start (r + 4800 * q)) = r + 4800 * q /\
  month_index (month_start (r + 4800 * q) - 1) = r + 4800 * q - 1.
Proof.
  intros Hb. rewrite month_start_period, Z.add_sub_swap.
  rewrite !month_index_period.
  pose proof (check_month_holds r Hb) as Hc.
  rewrite check_month_eq, andb_true_iff, !Z.eqb_eq in Hc.
  destruct Hc as [H1 H2].
  rewrite H1, H2. split; ring.
Qed.

Lemma month_start_first_day (mi : Z) :
  month_index (month_start mi) = mi /\
  month_index (month_start mi - 1) = mi - 1.
Proof.
  pose proof (month_start_first_day_era (mi mod 4800) (mi / 4800)
                (Z.mod_pos_bound mi 4800 eq_refl)) as H.
  replace (mi mod 4800 + 4800 * (mi / 4800)) with mi in H
    by (rewrite Z.add_comm; apply Z.div_mod; discriminate).
  exact H.
Qed.

(** Month [mi] is the days from [month_start mi] to [month_end mi]. *)
Lemma month_index_iff (z mi : Z) :
  month_index z = mi <-> month_start mi <= z <= month_end mi.
Proof.
  unfold month_end.
  destruct (month_start_first_day mi) as [Hs Hp].
  destruct (month_start_first_day (mi + 1)) as [Hs' Hp'].
  split.
  - intros Hz. split.
    + destruct (Z_le_gt_dec (month_start mi) z) as [| Hgt]; [assumption |].
      pose proof (month_index_monotone z (month_start mi - 1) ltac:(lia)). lia.
    + destruct (Z_le_gt_dec z (month_start (mi + 1) - 1)) as [| Hgt]; [assumption |].
      pose proof (month_index_monotone (month_start (mi + 1)) z ltac:(lia)). lia.
  - intros [Hlo Hhi].
    pose proof (month_index_monotone _ _ Hlo).
    pose proof (month_index_monotone _ _ Hhi). lia.
Qed.

(** [month_end mi] is the last day of month [mi]. *)
Lemma month_end_last_day (mi : Z) :
  month_index (month_end mi) = mi /\ month_index (month_end mi + 1) = mi + 1.
Proof.
  unfold month_end.
  destruct (month_start_first_day (mi + 1)) as [Hs Hp].
  split.
  - rewrite Hp. lia.
  - replace (month_start (mi + 1) - 1 + 1) with (month_start (mi + 1)) by lia.
    exact Hs.
Qed.

Lemma lengths_checked : all_below 13 4800 check_length 0 = true.
Proof. vm_cast_no_check (eq_refl true). Qed.

Lemma check_length_eq (mi : Z) :
  check_length mi
  = (month_start (mi + 1) - month_start mi
     =? days_in_month (mi / 12) (mi mod 12 + 1)).
Proof. reflexivity. Qed.

Lemma days_in_month_period (y m k : Z) :
  days_in_month (y + 400 * k) m = days_in_month y m.
Proof. unfold days_in_month. now rewrite is_leap_period. Qed.

Lemma month_length_era (r q : Z) :
  0 <= r < 4800 ->
  month_start (r + 4800 * q + 1) - month_start (r + 4800 * q)
  = days_in_month ((r + 4800 * q) / 12) ((r + 4800 * q) mod 12 + 1).
Proof.
  intros Hb.
  replace (r + 4800 * q + 1) with (r + 1 + 4800 * q) by ring.
  rewrite !month_start_period.
  replace (r + 4800 * q) with (r + (400 * q) * 12) by ring.
  rewrite Z.div_add, Z.mod_add by lia.
  rewrite days_in_month_period.
  pose proof (all_below_spec 13 4800 check_length 0 lengths_checked r
                ltac:(simpl; lia) ltac:(lia)) as Hc.
  rewrite check_length_eq, Z.eqb_eq in Hc. rewrite <- Hc. ring.
Qed.

(** Month [mi] has [days_in_month] days. *)
Lemma month_length (mi : Z) :
  month_start (mi + 1) - month_start mi
  = days_in_month (mi / 12) (mi mod 12 + 1).
Proof.
  pose proof (month_length_era (mi mod 4800) (mi / 4800)
                (Z.mod_pos_bound mi 4800 eq_refl)) as H.
  replace (mi mod 4800 + 4800 * (mi / 4800)) with mi in H
    by (rewrite Z.add_comm; apply Z.div_mod; discriminate).
  exact H.
Qed.

Lemma days_from_civil_day (y m d : Z) :
  days_from_civil {| year := y; month := m; day := d |}
  = days_from_civil {| year := y; month := m; day := 1 |} + (d - 1).
Proof. unfold days_from_civil. cbv zeta. cbn [year month day]. ring. Qed.

Lemma valid_bounds (c : Civil) :
  valid c = true ->
  1 <= month c <= 12 /\ 1 <= day c <= days_in_month (year c) (month c).
Proof.
  unfold valid. rewrite !andb_true_iff, !Z.leb_le. tauto.
Qed.

Lemma month_start_civil (y m : Z) :
  1 <= m <= 12 ->
  month_start (y * 12 + (m - 1))
  = days_from_civil {| year := y; month := m; day := 1 |} /\
  (y * 12 + (m - 1)) / 12 = y /\ (y * 12 + (m - 1)) mod 12 + 1 = m.
Proof.
  intros Hm. unfold month_start.
  replace (y * 12 + (m - 1)) with (m - 1 + y * 12) by ring.
  assert (Hq : (m - 1 + y * 12) / 12 = y).
  { rewrite Z.div_add by lia. rewrite Z.div_small by lia. ring. }
  assert (Hr : (m - 1 + y * 12) mod 12 + 1 = m).
  { rewrite Z.mod_add by lia. rewrite Z.mod_small by lia. ring. }
  now rewrite Hq, Hr.
Qed.

Lemma civil_from_month_index (z y m d : Z) :
  1 <= m <= 12 ->
  month_index z = y * 12 + (m - 1) ->
  z = days_from_civil {| year := y; month := m; day := 1 |} + (d - 1) ->
  civil_from_days z = {| year := y; month := m; day := d |}.
Proof.
  intros Hm Hmi Hz.
  pose proof (civil_from_days_valid z) as Hv.
  pose proof (days_from_civil_from_days z) as Hback.
  unfold month_index in Hmi.
  destruct (civil_from_days z) as [y' m' d'].
  destruct (valid_bounds _ Hv) as [Hm' _].
  unfold civil_month_index in Hmi. cbn [year month day] in Hmi, Hm'.
  assert (y' = y /\ m' = m) as [-> ->] by lia.
  rewrite days_from_civil_day in Hback.
  revert Hback Hz.
  generalize (days_from_civil {| year := y; month := m; day := 1 |}).
  intros s Hback Hz. f_equal. lia.
Qed.

(** A valid civil date converts to its day number and back. *)
Lemma civil_from_days_from_civil (c : Civil) :
  valid c = true -> civil_from_days (days_from_civil c) = c.
Proof.
  intros Hv. destruct (valid_bounds c Hv) as [Hm Hd].
  destruct c as [y m d]. cbn [year month day] in Hm, Hd.
  destruct (month_start_civil y m Hm) as (Hs & Hq & Hr).
  pose proof (month_length (y * 12 + (m - 1))) as Hl.
  rewrite Hq, Hr, Hs in Hl.
  pose proof (days_from_civil_day y m d) as Hz.
  apply (civil_from_month_index _ y m d Hm); [| exact Hz].
  apply month_index_iff. unfold month_end. rewrite Hs, Hz.
  revert Hl.
  generalize (month_start (y * 12 + (m - 1) + 1)).
  generalize (days_from_civil {| year := y; month := m; day := 1 |}).
  intros s e Hl. lia.
Qed.

Lemma days_in_month_range (y m : Z) : 28 <= days_in_month y m <= 31.
Proof.
  unfold days_in_month.
  destruct (m =? 2); [destruct (is_leap y); lia |].
  destruct ((m =? 4) || (m =? 6) || (m =? 9) || (m =? 11)); lia.
Qed.

(** A date of the calendar is given back by its month index and day. *)
Lemma civil_month_index_split (c : Civil) :
  valid c = true ->
  civil_month_index c / 12 = year c /\ civil_month_index c mod 12 + 1 = month c.
Proof.
  intros Hv. destruct (valid_bounds c Hv) as [Hm _].
  destruct (month_start_civil (year c) (month c) Hm) as (_ & Hq & Hr).
  unfold civil_month_index. rewrite Hq, Hr. split; reflexivity.
Qed.

(** [month_end mi] is the date, in month [mi], whose day is the length of
    the month. *)
Lemma month_end_civil (mi : Z) :
  civil_from_days (month_end mi)
  = {| year := mi / 12; month := mi mod 12 + 1;
       day := days_in_month (mi / 12) (mi mod 12 + 1) |}.
Proof.
  pose proof (month_length mi) as Hl.
  pose proof (days_in_month_range (mi / 12) (mi mod 12 + 1)) as Hr.
  pose proof (Z.mod_pos_bound mi 12 eq_refl) as Hm.
  set (len := days_in_month (mi / 12) (mi mod 12 + 1)) in *.
  assert (Hend : month_end mi
                 = days_from_civil {| year := mi / 12; month := mi mod 12 + 1;
                                      day := len |}).
  { rewrite days_from_civil_day. unfold month_end.
    fold (month_start mi). lia. }
  rewrite Hend. apply civil_from_days_from_civil.
  unfold valid. cbn [year month day]. fold len.
  rewrite !andb_true_iff, !Z.leb_le. lia.
Qed.

(** The last day of the month of day [z] is [month_end] of its month
    index. *)
Lemma month_end_of_day (z : Z) :
  civil_from_days (month_end (month_index z))
  = last_day_of_month (civil_from_days z).
Proof.
  rewrite month_end_civil. unfold month_index, last_day_of_month.
  destruct (civil_month_index_split _ (civil_from_days_valid z)) as [-> ->].
  reflexivity.
Qed.



End CalendarFacts.

(** ** Monthly trend *)

Lemma Zrange_In (lo : Z) (n : nat) (x : Z) :
  In x (Zrange lo n) <-> lo <= x < lo + Z.of_nat n.
Proof.
  unfold Zrange. rewrite in_map_iff. split.
  - intros [i [<- Hi]]. apply in_seq in Hi. lia.
  - intros H. exists (Z.to_nat (x - lo)). split; [lia |].
    apply in_seq. lia.
Qed.

Lemma Zrange_NoDup (lo : Z) (n : nat) : NoDup (Zrange lo n).
Proof.
  unfold Zrange. generalize (seq_NoDup n 0).
  induction (seq 0 n) as [| i l IH]; simpl; intros Hnd; [constructor |].
  inversion Hnd as [| ? ? Hi Hl]; subst. constructor; [| now apply IH].
  rewrite in_map_iff. intros [j [Hj Hin]].
  assert (j = i) by lia. now subst.
Qed.

Lemma month_bins_range (first : Row) (rest : DataFrame) (mi : Z) :
  In mi (month_bins (first :: rest)) <->
  Calendar.month_index (min_date first rest) <= mi
  <= Calendar.month_index (max_date first rest).
Proof.
  unfold month_bins. rewrite Zrange_In.
  assert (Hle : Calendar.month_index (min_date first rest)
                <= Calendar.month_index (max_date first rest)).
  { apply CalendarFacts.month_index_monotone.
    pose proof (order_date_bounds first rest first (or_introl eq_refl)). lia. }
  rewrite Z2Nat.id by lia. lia.
Qed.

(** The month of every row is one of the bins. *)
Lemma month_bins_In (fdf : DataFrame) (r : Row) :
  In r fdf -> In (Calendar.month_index (Order_Date r)) (month_bins fdf).
Proof.
  destruct fdf as [| first rest]; [intros [] |]. intros Hr.
  apply month_bins_range.
  pose proof (order_date_bounds first rest r Hr) as [Hlo Hhi].
  split; now apply CalendarFacts.month_index_monotone.
Qed.

Lemma month_bins_NoDup (fdf : DataFrame) : NoDup (month_bins fdf).
Proof.
  destruct fdf as [| first rest]; [constructor | apply Zrange_NoDup].
Qed.

Lemma in_month_In (mi : Z) (fdf : DataFrame) (r : Row) :
  In r (in_month mi fdf) <-> In r fdf /\ Calendar.month_index (Order_Date r) = mi.
Proof. unfold in_month. now rewrite filter_In, Z.eqb_eq. Qed.

Lemma month_end_injective (a b : Z) :
  Calendar.month_end a = Calendar.month_end b -> a = b.
Proof.
  intros H.
  destruct (CalendarFacts.month_end_last_day a) as [Ha _].
  destruct (CalendarFacts.month_end_last_day b) as [Hb _].
  congruence.
Qed.

Lemma monthly_sales_labels_NoDup (fdf : DataFrame) :
  NoDup (map m_Order_Date (monthly_sales fdf)).
Proof.
  unfold monthly_sales. rewrite map_map. simpl.
  generalize (month_bins_NoDup fdf).
  induction (month_bins fdf) as [| mi l IH]; simpl; intros Hnd; [constructor |].
  inversion Hnd as [| ? ? Hmi Hl]; subst. constructor; [| now apply IH].
  rewrite in_map_iff. intros [mj [Hj Hin]].
  apply month_end_injective in Hj. now subst.
Qed.

(** C3, as the code has it. Every record falls in the bucket of the
    calendar month that contains its order date, and the result identifies
    that bucket by the last day of the month.  There is one bucket for
    every month from the month of the earliest order date to the month of
    the latest, with or without records, and no two buckets share a label.
    Three records of March 2023 with sales 10, 20 and 30 give the single
    bucket labelled 2023-03-31 with sales 60. *)
Theorem monthly_sales_buckets (fdf : DataFrame) :
  (forall r, In r fdf ->
     In (month_row fdf (Calendar.month_index (Order_Date r))) (monthly_sales fdf) /\
     In r (in_month (Calendar.month_index (Order_Date r)) fdf) /\
     Calendar.civil_from_days
       (m_Order_Date (month_row fdf (Calendar.month_index (Order_Date r))))
     = Calendar.last_day_of_month (Calendar.civil_from_days (Order_Date r)) /\
     Calendar.month_start (Calendar.month_index (Order_Date r))
     <= Order_Date r
     <= Calendar.month_end (Calendar.month_index (Order_Date r))) /\
  (forall b, In b (monthly_sales fdf) ->
     exists mi,
       b = month_row fdf mi /\
       m_Order_Date b = Calendar.month_end mi /\
       Calendar.month_index (m_Order_Date b) = mi /\
       Calendar.month_index (m_Order_Date b + 1) = mi + 1 /\
       m_Sales b = Qsum (map Sales (in_month mi fdf))) /\
  (forall first rest mi,
     fdf = first :: rest ->
     Calendar.month_index (min_date first rest) <= mi
     <= Calendar.month_index (max_date first rest) ->
     In (month_row fdf mi) (monthly_sales fdf)) /\
  NoDup (map m_Order_Date (monthly_sales fdf)) /\
  monthly_sales Sample.march_records
  = [ {| m_Order_Date := Sample.date 2023 3 31; m_Sales := 60; m_Profit := 6 |} ].
Proof.
  split; [| split; [| split; [| split]]].
  - intros r Hr. split; [| split; [| split]].
    + unfold monthly_sales. apply in_map. now apply month_bins_In.
    + now apply in_month_In.
    + apply CalendarFacts.month_end_of_day.
    + now apply CalendarFacts.month_index_iff.
  - intros b Hb. unfold monthly_sales in Hb. apply in_map_iff in Hb.
    destruct Hb as [mi [<- _]]. exists mi.
    destruct (CalendarFacts.month_end_last_day mi) as [H1 H2].
    repeat split; assumption.
  - intros first rest mi -> Hmi. unfold monthly_sales.
    apply in_map. now apply month_bins_range.
  - apply monthly_sales_labels_NoDup.
  - vm_compute. reflexivity.
Qed.

(** C3, as the specification words it, fails: with one record in January
    2023 and one in March 2023 the result has a bucket for February, which
    holds no record, with sales 0; and the bucket of the three March records
    is labelled 2023-03-31, not 2023-03-01. *)
Lemma monthly_sales_fills_empty_months :
  monthly_sales Sample.january_and_march
  = [ {| m_Order_Date := Sample.date 2023 1 31; m_Sales := 10; m_Profit := 1 |};
      {| m_Order_Date := Sample.date 2023 2 28; m_Sales := 0; m_Profit := 0 |};
      {| m_Order_Date := Sample.date 2023 3 31; m_Sales := 30; m_Profit := 3 |} ] /\
  in_month (Calendar.month_index (Sample.date 2023 2 28)) Sample.january_and_march = [] /\
  map m_Order_Date (monthly_sales Sample.march_records) = [Sample.date 2023 3 31] /\
  Sample.date 2023 3 31 <> Sample.date 2023 3 1.
Proof.
  split; [now vm_compute |]. split; [now vm_compute |].
  split; [now vm_compute |]. vm_compute. discriminate.
Qed.

(** * More of the dashboard *)

(** ** Sorting and first rows *)

Section SortFacts.

Context {A : Type} (value : A -> Q).

Lemma insert_by_desc_Permutation (x : A) (l : list A) :
  Permutation (insert_by_desc value x l) (x :: l).
Proof.
  induction l as [| y l IH]; simpl; [reflexivity |].
  destruct (Qle_bool (value y) (value x)); [reflexivity |].
  rewrite IH. apply perm_swap.
Qed.

Lemma sort_by_desc_Permutation (l : list A) :
  Permutation (sort_by_desc value l) l.
Proof.
  induction l as [| x l IH]; simpl; [reflexivity |].
  rewrite insert_by_desc_Permutation. now constructor.
Qed.

Lemma insert_by_asc_Permutation (x : A) (l : list A) :
  Permutation (insert_by_asc value x l) (x :: l).
Proof.
  induction l as [| y l IH]; simpl; [reflexivity |].
  destruct (Qle_bool (value x) (value y)); [reflexivity |].
  rewrite IH. apply perm_swap.
Qed.

Lemma sort_by_asc_Permutation (l : list A) :
  Permutation (sort_by_asc value l) l.
Proof.
  induction l as [| x l IH]; simpl; [reflexivity |].
  rewrite insert_by_asc_Permutation. now constructor.
Qed.

Lemma Qle_bool_false (x y : Q) : Qle_bool x y = false -> (y <= x)%Q.
Proof.
  intros H. apply Qlt_le_weak, Qnot_le_lt. intros Hle.
  apply Qle_bool_iff in Hle. congruence.
Qed.

Lemma insert_by_desc_Descending (x : A) (l : list A) :
  Descending value l -> Descending value (insert_by_desc value x l).
Proof.
  unfold Descending. induction 1 as [| y l Hl IH Hy]; simpl.
  - repeat constructor.
  - destruct (Qle_bool (value y) (value x)) eqn:E.
    + apply Qle_bool_iff in E. constructor; [now constructor |].
      constructor; [exact E |].
      rewrite Forall_forall in *. intros z Hz.
      apply Qle_trans with (value y); auto.
    + apply Qle_bool_false in E. constructor; [exact IH |].
      rewrite Forall_forall in *. intros z Hz.
      apply (Permutation_in _ (insert_by_desc_Permutation x l)) in Hz.
      destruct Hz as [<- | Hz]; auto.
Qed.

Lemma sort_by_desc_Descending (l : list A) : Descending value (sort_by_desc value l).
Proof.
  induction l as [| x l IH]; simpl; [constructor |].
  now apply insert_by_desc_Descending.
Qed.

Lemma insert_by_asc_Ascending (x : A) (l : list A) :
  Ascending value l -> Ascending value (insert_by_asc value x l).
Proof.
  unfold Ascending. induction 1 as [| y l Hl IH Hy]; simpl.
  - repeat constructor.
  - destruct (Qle_bool (value x) (value y)) eqn:E.
    + apply Qle_bool_iff in E. constructor; [now constructor |].
      constructor; [exact E |].
      rewrite Forall_forall in *. intros z Hz.
      apply Qle_trans with (value y); auto.
    + apply Qle_bool_false in E. constructor; [exact IH |].
      rewrite Forall_forall in *. intros z Hz.
      apply (Permutation_in _ (insert_by_asc_Permutation x l)) in Hz.
      destruct Hz as [<- | Hz]; auto.
Qed.

Lemma sort_by_asc_Ascending (l : list A) : Ascending value (sort_by_asc value l).
Proof.
  induction l as [| x l IH]; simpl; [constructor |].
  now apply insert_by_asc_Ascending.
Qed.

Lemma Descending_app (l1 l2 : list A) :
  Descending value (l1 ++ l2) ->
  Descending value l1 /\
  (forall a b, In a l1 -> In b l2 -> (value b <= value a)%Q).
Proof.
  unfold Descending. induction l1 as [| x l1 IH]; simpl; intros H.
  - split; [constructor | intros a b []].
  - inversion H as [| ? ? Hs Hx]; subst.
    destruct (IH Hs) as [H1 H2]. split.
    + constructor; [exact H1 |].
      rewrite Forall_forall in *. intros z Hz. apply Hx, in_or_app. now left.
    + intros a b [<- | Ha] Hb; [| now apply H2].
      rewrite Forall_forall in Hx. apply Hx, in_or_app. now right.
Qed.

(** The first [n] rows of a table in descending order: at most [n] rows,
    still descending, each taken from the table, and no row left out has a
    larger value than a row kept. *)
Lemma firstn_sort_by_desc (n : nat) (l : list A) :
  List.length (firstn n (sort_by_desc value l)) = Nat.min n (List.length l) /\
  Descending value (firstn n (sort_by_desc value l)) /\
  Permutation (firstn n (sort_by_desc value l) ++ skipn n (sort_by_desc value l)) l /\
  (forall a b,
      In a (firstn n (sort_by_desc value l)) ->
      In b (skipn n (sort_by_desc value l)) ->
      (value b <= value a)%Q).
Proof.
  pose proof (sort_by_desc_Descending l) as Hs.
  pose proof (sort_by_desc_Permutation l) as Hp.
  rewrite <- (firstn_skipn n (sort_by_desc value l)) in Hs.
  destruct (Descending_app _ _ Hs) as [H1 H2].
  split; [| split; [exact H1 | split; [| exact H2]]].
  - rewrite length_firstn. now rewrite (Permutation_length Hp).
  - now rewrite firstn_skipn.
Qed.

End SortFacts.

Lemma firstn_In {A : Type} (n : nat) (l : list A) (x : A) :
  In x (firstn n l) -> In x l.
Proof.
  revert l. induction n as [| n IH]; intros [| y l]; simpl; try tauto.
  intros [H | H]; [now left | right; now apply IH].
Qed.

(** ** The structure of a grouped table *)

Section GroupFacts.

Context {K : Type} (eqb leb : K -> K -> bool).
Hypothesis eqb_eq : forall a b, eqb a b = true <-> a = b.
Variable key : Row -> K.

Lemma group_keys_In (df : DataFrame) (k : K) :
  In k (group_keys eqb leb key df) <-> exists r, In r df /\ key r = k.
Proof.
  unfold group_keys.
  split.
  - intros H. apply (Permutation_in _ (sort_keys_Permutation leb _)) in H.
    apply (proj1 (distinct_In eqb _ eqb_eq k)) in H. apply in_map_iff in H.
    destruct H as [r [Hk Hr]]. now exists r.
  - intros [r [Hr <-]].
    apply (Permutation_in _ (Permutation_sym (sort_keys_Permutation leb _))).
    apply (proj2 (distinct_In eqb _ eqb_eq (key r))). now apply in_map.
Qed.

Lemma group_keys_NoDup (df : DataFrame) : NoDup (group_keys eqb leb key df).
Proof.
  unfold group_keys.
  apply (Permutation_NoDup (Permutation_sym (sort_keys_Permutation leb _))).
  now apply distinct_NoDup.
Qed.

Lemma group_In (df : DataFrame) (k : K) (r : Row) :
  In r (group eqb key df k) <-> In r df /\ key r = k.
Proof. unfold group. now rewrite filter_In, eqb_eq. Qed.

Lemma groupby_In (df : DataFrame) (kg : K * DataFrame) :
  In kg (groupby eqb leb key df) <->
  In (fst kg) (group_keys eqb leb key df) /\ snd kg = group eqb key df (fst kg).
Proof.
  unfold groupby. rewrite in_map_iff. split.
  - intros [k [<- Hk]]. simpl. auto.
  - intros [Hk Hg]. exists (fst kg). split; [| exact Hk].
    destruct kg as [k g]. simpl in *. now subst.
Qed.

(** No group is empty. *)
Lemma groupby_nonempty (df : DataFrame) (kg : K * DataFrame) :
  In kg (groupby eqb leb key df) -> exists r, In r (snd kg) /\ key r = fst kg.
Proof.
  intros H. apply groupby_In in H. destruct H as [Hk ->].
  apply group_keys_In in Hk. destruct Hk as [r [Hr Hkey]].
  exists r. split; [| exact Hkey]. now apply group_In.
Qed.

Lemma groupby_keys (df : DataFrame) :
  map fst (groupby eqb leb key df) = group_keys eqb leb key df.
Proof. unfold groupby. rewrite map_map. simpl. apply map_id. Qed.

End GroupFacts.

(** *** Text keys come out in ascending order *)

Lemma ascii_compare_trans (a b c : Ascii.ascii) (o : comparison) :
  Ascii.compare a b = o -> Ascii.compare b c = o -> Ascii.compare a c = o.
Proof.
  unfold Ascii.compare. destruct o; intros H1 H2.
  - apply N.compare_eq_iff in H1, H2. apply N.compare_eq_iff. congruence.
  - apply N.compare_lt_iff in H1. apply N.compare_lt_iff in H2.
    apply N.compare_lt_iff. now apply N.lt_trans with (Ascii.N_of_ascii b).
  - apply N.compare_gt_iff in H1. apply N.compare_gt_iff in H2.
    apply N.compare_gt_iff. now apply N.lt_trans with (Ascii.N_of_ascii b).
Qed.

Lemma string_compare_lt_trans (s1 s2 s3 : string) :
  String.compare s1 s2 = Lt -> String.compare s2 s3 = Lt ->
  String.compare s1 s3 = Lt.
Proof.
  revert s2 s3. induction s1 as [| a s1 IH]; intros [| b s2] [| c s3]; simpl;
    try discriminate; try reflexivity.
  destruct (Ascii.compare a b) eqn:Eab; try discriminate;
    destruct (Ascii.compare b c) eqn:Ebc; try discriminate; intros H1 H2.
  - rewrite (ascii_compare_trans a b c Eq Eab Ebc). now apply (IH s2).
  - apply Ascii.compare_eq_iff in Eab. subst. now rewrite Ebc.
  - apply Ascii.compare_eq_iff in Ebc. subst. now rewrite Eab.
  - now rewrite (ascii_compare_trans a b c Lt Eab Ebc).
Qed.

Lemma string_leb_trans (s1 s2 s3 : string) :
  String.leb s1 s2 = true -> String.leb s2 s3 = true -> String.leb s1 s3 = true.
Proof.
  unfold String.leb.
  destruct (String.compare s1 s2) eqn:E12; try discriminate;
    destruct (String.compare s2 s3) eqn:E23; try discriminate; intros _ _.
  - apply String.compare_eq_iff in E12. subst s1. now rewrite E23.
  - apply String.compare_eq_iff in E12. subst s1. now rewrite E23.
  - apply String.compare_eq_iff in E23. subst s3. now rewrite E12.
  - now rewrite (string_compare_lt_trans _ _ _ E12 E23).
Qed.

Lemma insert_key_ascending (k : string) (l : list string) :
  KeysAscending l -> KeysAscending (insert_key String.leb k l).
Proof.
  unfold KeysAscending. induction 1 as [| y l Hl IH Hy]; simpl.
  - repeat constructor.
  - destruct (String.leb k y) eqn:E.
    + constructor; [now constructor |]. constructor; [exact E |].
      rewrite Forall_forall in *. intros z Hz.
      apply string_leb_trans with y; auto.
    + assert (Hyk : String.leb y k = true)
        by (destruct (String.leb_total k y); congruence).
      constructor; [exact IH |].
      rewrite Forall_forall in *. intros z Hz.
      apply (Permutation_in _ (insert_key_Permutation String.leb k l)) in Hz.
      destruct Hz as [<- | Hz]; auto.
Qed.

Lemma sort_keys_ascending (l : list string) :
  KeysAscending (sort_keys String.leb l).
Proof.
  induction l as [| x l IH]; simpl; [constructor |].
  now apply insert_key_ascending.
Qed.

(** ** The sidebar and the filter, further *)

Lemma selected_In (ui : Sidebar) (d : Dimension) (df : DataFrame) (x : string) :
  In x (selected ui d df) <->
  (exists r, In r df /\ column d r = x) /\ checked ui x = true.
Proof.
  unfold selected. rewrite filter_In, unique_In, in_map_iff.
  split; intros [[r [H1 H2]] Hc]; (split; [exists r; tauto | exact Hc]).
Qed.

Lemma selected_NoDup (ui : Sidebar) (d : Dimension) (df : DataFrame) :
  NoDup (selected ui d df).
Proof.
  unfold selected. apply NoDup_filter, distinct_NoDup. exact String.eqb_eq.
Qed.

Lemma has_duplicate_NoDup (l : list string) :
  has_duplicate l = false <-> NoDup l.
Proof.
  induction l as [| x l IH]; simpl.
  - split; [constructor | reflexivity].
  - rewrite orb_false_iff, IH. split.
    + intros [Hx Hl]. constructor; [| exact Hl].
      intros Hin. apply isin_In in Hin. congruence.
    + intros H. inversion H as [| ? ? Hx Hl]; subst. split; [| exact Hl].
      apply not_true_iff_false. intros Hin. apply isin_In in Hin.
      contradiction.
Qed.

Lemma has_duplicate_app (l1 l2 : list string) :
  has_duplicate (l1 ++ l2) = true <->
  has_duplicate l1 = true \/ has_duplicate l2 = true \/
  exists x, In x l1 /\ In x l2.
Proof.
  induction l1 as [| a l1 IH]; simpl.
  - split; [auto |]. intros [H | [H | [x [[] _]]]]; [discriminate | exact H].
  - unfold isin. rewrite existsb_app. fold (isin a l1). fold (isin a l2).
    rewrite !orb_true_iff, IH, !isin_In. split.
    + intros [[H | H] | [H | [H | [x [H1 H2]]]]]; auto.
      * right. right. exists a. auto.
      * right. right. exists x. auto.
    + intros [[H | H] | [H | [x [[<- | H1] H2]]]]; auto.
      right. right. right. now exists x.
Qed.

(** Lists that have no duplicate each: their concatenation has one exactly
    when two of them share an element. *)
Lemma has_duplicate_flat_map {A : Type} (f : A -> list string) (ds : list A) :
  NoDup ds ->
  (forall d, has_duplicate (f d) = false) ->
  (has_duplicate (flat_map f ds) = true <->
   exists d d' x, In d ds /\ In d' ds /\ d <> d' /\ In x (f d) /\ In x (f d')).
Proof.
  intros Hnd Hf. induction Hnd as [| d ds Hd Hnd IH]; simpl.
  - split; [discriminate |]. intros (d & _ & _ & [] & _).
  - rewrite has_duplicate_app, IH. split.
    + intros [H | [(d1 & d2 & x & H1 & H2 & Hne & Hx1 & Hx2) | (x & Hx & HF)]].
      * rewrite Hf in H. discriminate.
      * exists d1, d2, x. auto 6.
      * apply in_flat_map in HF. destruct HF as (d' & Hd' & Hx').
        exists d, d', x. repeat split; auto. intros ->. contradiction.
    + intros (d1 & d2 & x & [<- | H1] & [<- | H2] & Hne & Hx1 & Hx2).
      * congruence.
      * right. right. exists x. split; [exact Hx1 |].
        apply in_flat_map. now exists d2.
      * right. right. exists x. split; [exact Hx2 |].
        apply in_flat_map. now exists d1.
      * right. left. exists d1, d2, x. auto.
Qed.

(** The checkboxes clash exactly when one label occurs in two filter
    columns. *)
Lemma checkbox_keys_clash (df : DataFrame) :
  has_duplicate (checkbox_keys df) = true <->
  exists d d' x,
    d <> d' /\ In x (map (column d) df) /\ In x (map (column d') df).
Proof.
  unfold checkbox_keys. rewrite has_duplicate_flat_map.
  - split.
    + intros (d & d' & x & _ & _ & Hne & H1 & H2).
      exists d, d', x. split; [exact Hne |].
      split; now apply (proj1 (unique_In _ x)).
    + intros (d & d' & x & Hne & H1 & H2). exists d, d', x.
      split; [destruct d; simpl; tauto |].
      split; [destruct d'; simpl; tauto |].
      split; [exact Hne |]. split; now apply unique_In.
  - repeat constructor; simpl; intuition discriminate.
  - intros d. apply has_duplicate_NoDup, distinct_NoDup. exact String.eqb_eq.
Qed.

Lemma draw_sidebar_outcome (ui : Sidebar) (df : DataFrame) :
  (has_duplicate (checkbox_keys df) = true /\
   draw_sidebar ui df = Raise DuplicateWidgetID) \/
  (has_duplicate (checkbox_keys df) = false /\
   draw_sidebar ui df = Ok (sidebar_spec ui df)).
Proof.
  unfold draw_sidebar. destruct (has_duplicate (checkbox_keys df)); auto.
Qed.

(** X1. The sidebar ends the run on a duplicate widget key exactly when
    one label occurs in two filter columns (a row with category and
    sub-category [Misc] does it).  Otherwise each expander hands the filter
    the distinct values of its column whose box is checked, each once; so
    the filtered table holds exactly the rows whose order date lies between
    the two date inputs and whose six values all have their box checked. *)
Theorem sidebar_filter_shows_checked_rows (ui : Sidebar) (df : DataFrame) :
  (draw_sidebar ui df = Raise DuplicateWidgetID <->
   exists d d' x,
     d <> d' /\ In x (map (column d) df) /\ In x (map (column d') df)) /\
  (forall e, draw_sidebar ui df = Raise e -> e = DuplicateWidgetID) /\
  (forall spec,
      draw_sidebar ui df = Ok spec ->
      (forall d, NoDup (allowed spec d)) /\
      (forall d x, In x (allowed spec d) <->
                   (exists r, In r df /\ column d r = x) /\
                   checked ui x = true) /\
      (forall r, In r (filtered_df df spec) <->
                 In r df /\
                 start_input ui <= Order_Date r <= end_input ui /\
                 (forall d, checked ui (column d r) = true))) /\
  draw_sidebar Sample.all_checked [Scenario.misc_row] = Raise DuplicateWidgetID.
Proof.
  split; [| split; [| split; [| reflexivity]]].
  - rewrite <- checkbox_keys_clash.
    destruct (draw_sidebar_outcome ui df) as [[Hk ->] | [Hk ->]]; rewrite Hk.
    + tauto.
    + split; discriminate.
  - intros e.
    destruct (draw_sidebar_outcome ui df) as [[_ ->] | [_ ->]];
      [congruence | discriminate].
  - intros spec.
    destruct (draw_sidebar_outcome ui df) as [[_ ->] | [_ ->]];
      [discriminate |].
    intros H. injection H as <-.
    split; [intros d; rewrite allowed_sidebar_spec; apply selected_NoDup |].
    split; [intros d x; rewrite allowed_sidebar_spec; apply selected_In |].
    intros r. unfold filtered_df. rewrite filter_In, mask_passes. unfold passes.
    simpl start_date. simpl end_date. split.
    + intros (Hr & Hd & Hall). repeat split; try tauto.
      intros d. specialize (Hall d). rewrite allowed_sidebar_spec in Hall.
      now apply selected_In in Hall.
    + intros (Hr & Hd & Hall). repeat split; try tauto.
      intros d. rewrite allowed_sidebar_spec. apply selected_In.
      split; [now exists r | apply Hall].
Qed.

(** X2. A run that loads a non-empty table in which no label occurs in two
    filter columns, and leaves the sidebar as first drawn (dates at the
    extremes of the data, every box checked), draws the dashboard from the
    whole table; when a label occurs in two filter columns the run ends on
    the duplicate key and draws nothing. *)
Theorem first_draw_shows_everything (fs : FileSystem) (log : list Message)
    (first : Row) (rest : DataFrame) :
  load_data fs = (log, Ok (first :: rest)) ->
  (NoDup (checkbox_keys (first :: rest)) ->
   script fs (default_sidebar first rest)
   = Rendered log (render (first :: rest))) /\
  (~ NoDup (checkbox_keys (first :: rest)) ->
   script fs (default_sidebar first rest) = Crashed log DuplicateWidgetID).
Proof.
  intros Hload. unfold script. rewrite Hload. cbn [empty].
  destruct (draw_sidebar_outcome (default_sidebar first rest) (first :: rest))
    as [[Hk ->] | [Hk ->]].
  - split; [| reflexivity]. intros Hnd.
    apply has_duplicate_NoDup in Hnd. congruence.
  - split.
    + intros _. now rewrite default_sidebar_identity.
    + intros Hnd. apply has_duplicate_NoDup in Hk. contradiction.
Qed.

Lemma first_draw_shows_everything_witness :
  NoDup (checkbox_keys [Scenario.on_time_row; Scenario.late_row]) /\
  script Sample.good_file
    (default_sidebar Scenario.on_time_row [Scenario.late_row])
  = Rendered [] (render [Scenario.on_time_row; Scenario.late_row]).
Proof.
  assert (Hnd : NoDup (checkbox_keys [Scenario.on_time_row; Scenario.late_row]))
    by (apply has_duplicate_NoDup; reflexivity).
  split; [exact Hnd |].
  apply (first_draw_shows_everything Sample.good_file []
           Scenario.on_time_row [Scenario.late_row]); [reflexivity | exact Hnd].
Defined.

(** X3. The filter does not check that the start date precedes the end
    date: with the end before the start no row passes. *)
Theorem inverted_date_range_selects_nothing (df : DataFrame) (s : FilterSpec) :
  end_date s < start_date s -> filtered_df df s = [].
Proof.
  intros Hinv. apply filter_none. intros r _.
  destruct (mask s r) eqn:E; [| reflexivity].
  apply mask_passes in E. destruct E as [Hd _]. lia.
Qed.

Lemma inverted_date_range_selects_nothing_witness :
  filtered_df Sample.two_records Scenario.inverted_spec = [].
Proof.
  apply (inverted_date_range_selects_nothing Sample.two_records
           Scenario.inverted_spec).
  reflexivity.
Defined.

Lemma filter_filter_swap {A} (p q : A -> bool) (l : list A) :
  filter p (filter q l) = filter q (filter p l).
Proof.
  rewrite !filter_filter_comm. apply filter_ext. intros a. apply andb_comm.
Qed.

(** X4. Filtering is idempotent, two filters can be applied in either
    order, and the loss rows of the filtered table are the filtered loss
    rows of the whole table. *)
Theorem filters_commute (df : DataFrame) (s1 s2 : FilterSpec) :
  filtered_df (filtered_df df s1) s1 = filtered_df df s1 /\
  filtered_df (filtered_df df s1) s2 = filtered_df (filtered_df df s2) s1 /\
  loss_df (filtered_df df s1) = filtered_df (loss_df df) s1.
Proof.
  unfold filtered_df, loss_df. split; [| split].
  - rewrite filter_filter_comm. apply filter_ext. intros r.
    now destruct (mask s1 r).
  - apply filter_filter_swap.
  - apply filter_filter_swap.
Qed.

(** ** The loader, further *)

Lemma loaded_loaded_from (raw : RawRow) : loaded_from raw (loaded raw).
Proof. unfold loaded_from. repeat split; reflexivity. Qed.

Lemma load_row_loaded_from (raw : RawRow) (row : Row) :
  load_row raw = Ok row -> dates_parse raw = true /\ loaded_from raw row.
Proof.
  intros H. apply load_row_loaded in H. destruct H as (Ho & Hs & _ & ->).
  split; [| apply loaded_loaded_from].
  unfold dates_parse. now rewrite Ho, Hs.
Qed.

Lemma forallb_dates_parse (rows : list RawRow) :
  forallb dates_parse rows
  = forallb (fun r => date_parses (raw_Order_Date r)) rows &&
    forallb (fun r => date_parses (raw_Ship_Date r)) rows.
Proof. unfold dates_parse. apply forallb_andb. Qed.

(** How the load of a table ends. *)
Lemma load_columns_outcome (rows : list RawRow) :
  (forallb dates_parse rows = true /\ forallb difference_fits rows = true /\
   load_columns rows = Ok (map loaded rows)) \/
  (forallb dates_parse rows = false /\
   load_columns rows = Raise DateParseError) \/
  (forallb dates_parse rows = true /\ forallb difference_fits rows = false /\
   load_columns rows = Raise TimedeltaOverflow).
Proof.
  rewrite load_columns_eq, forallb_dates_parse.
  destruct (forallb (fun r => date_parses (raw_Order_Date r)) rows);
    cbn [andb]; [| right; left; auto].
  destruct (forallb (fun r => date_parses (raw_Ship_Date r)) rows);
    [| right; left; auto].
  destruct (forallb difference_fits rows); [left | right; right]; auto.
Qed.

Lemma Forall2_loaded (rows : list RawRow) :
  Forall2 loaded_from rows (map loaded rows).
Proof.
  induction rows as [| raw rows IH]; simpl; constructor;
    [apply loaded_loaded_from | exact IH].
Qed.

Lemma load_data_source_table (fs : FileSystem) (rows : list RawRow) :
  source_table fs rows -> load_data fs = ([], load_columns rows).
Proof.
  unfold load_data, load_from, read_csv, path_exists.
  intros [Hhere | [Hhere Hparent]].
  - now rewrite Hhere.
  - now rewrite Hhere, Hparent.
Qed.

(** X5. The file in the current directory wins: what is loaded depends on
    the parent directory only when the current one lacks the file. *)
Theorem current_directory_wins (fs1 fs2 : FileSystem) :
  fs1 csv_here = fs2 csv_here ->
  (fs1 csv_here = None -> fs1 csv_parent = fs2 csv_parent) ->
  load_data fs1 = load_data fs2.
Proof.
  intros Hhere Hparent.
  unfold load_data, load_from, read_csv, path_exists. rewrite <- Hhere.
  destruct (fs1 csv_here) as [f |]; [reflexivity |].
  now rewrite <- (Hparent eq_refl).
Qed.

Lemma current_directory_wins_witness :
  load_data Sample.good_file = load_data Scenario.good_file_and_parent.
Proof.
  apply (current_directory_wins Sample.good_file Scenario.good_file_and_parent).
  - reflexivity.
  - discriminate.
Defined.

(** X6. A successful load of a table returns one row per line of the file,
    in the order of the file, with every column but the dates copied, the
    dates turned into day numbers and the processing time added; no message
    is shown. *)
Theorem load_keeps_lines (fs : FileSystem) (rows : list RawRow)
    (log : list Message) (df : DataFrame) :
  source_table fs rows ->
  load_data fs = (log, Ok df) ->
  log = [] /\ Forall2 loaded_from rows df /\
  List.length df = List.length rows.
Proof.
  intros Hsrc Hload. rewrite (load_data_source_table fs rows Hsrc) in Hload.
  injection Hload as <- Hdf.
  apply load_columns_Ok in Hdf. destruct Hdf as [_ ->].
  split; [reflexivity |]. split; [apply Forall2_loaded |].
  apply length_map.
Qed.

Lemma load_keeps_lines_witness :
  [] = ([] : list Message) /\
  Forall2 loaded_from [Sample.shipped_in_four; Sample.shipped_before_ordered]
    [Scenario.on_time_row; Scenario.late_row] /\
  List.length [Scenario.on_time_row; Scenario.late_row]
  = List.length [Sample.shipped_in_four; Sample.shipped_before_ordered].
Proof.
  apply (load_keeps_lines Sample.good_file
           [Sample.shipped_in_four; Sample.shipped_before_ordered] []
           [Scenario.on_time_row; Scenario.late_row]).
  - left. reflexivity.
  - reflexivity.
Defined.

Lemma forallb_false_exists {A} (f : A -> bool) (l : list A) :
  forallb f l = false <-> exists x, In x l /\ f x = false.
Proof.
  induction l as [| a l IH]; simpl.
  - split; [discriminate | intros [x [[] _]]].
  - rewrite andb_false_iff, IH. split.
    + intros [Ha | [x [Hx Hf]]]; [exists a | exists x]; auto.
    + intros [x [[<- | Hx] Hf]]; [now left | right; now exists x].
Qed.

(** X8. The dashboard is drawn only from a non-empty loaded table, and then
    no error message has been shown; a file that holds no line is reported
    as a failed load and the script stops, and so does a run whose load
    returned the empty table for any reason. *)
Theorem dashboard_needs_rows (fs : FileSystem) (ui : Sidebar) :
  (forall log d,
      script fs ui = Rendered log d ->
      log = [] /\
      exists first rest,
        load_data fs = ([], Ok (first :: rest)) /\
        d = render (filtered_df (first :: rest)
                      (sidebar_spec ui (first :: rest)))) /\
  (source_table fs [] -> script fs ui = Stopped [failed_message]) /\
  (forall log, load_data fs = (log, Ok []) ->
               script fs ui = Stopped (log ++ [failed_message])).
Proof.
  split; [| split].
  - intros log d. unfold script.
    destruct (load_data fs) as [log' [df | e]] eqn:Hload; [| discriminate].
    destruct df as [| first rest]; cbn [empty]; [discriminate |].
    destruct (draw_sidebar_outcome ui (first :: rest)) as [[_ ->] | [_ ->]];
      [discriminate |].
    intros H. injection H as <- <-.
    assert (log' = []).
    { unfold load_data in Hload.
      destruct (path_exists fs csv_here); [now injection Hload as <- _ |].
      destruct (path_exists fs csv_parent); [now injection Hload as <- _ |].
      discriminate. }
    subst log'. split; [reflexivity |]. now exists first, rest.
  - intros Hsrc. unfold script.
    now rewrite (load_data_source_table fs [] Hsrc).
  - intros log Hload. unfold script. now rewrite Hload.
Qed.

(** ** Key metrics and losses, further *)

Lemma Qsum_negative (l : list Q) :
  l <> [] -> (forall x, In x l -> (x < 0)%Q) -> (Qsum l < 0)%Q.
Proof.
  destruct l as [| x l]; [congruence |]. intros _ H. simpl.
  assert (Hx : (x < 0)%Q) by (apply H; now left).
  assert (Hl : (Qsum l <= 0)%Q).
  { apply Qsum_nonpos. intros y Hy. apply Qlt_le_weak, H. now right. }
  lra.
Qed.

Lemma loss_df_In (fdf : DataFrame) (r : Row) :
  In r (loss_df fdf) <-> In r fdf /\ (Profit r < 0)%Q.
Proof. unfold loss_df. now rewrite filter_In, Qltb_lt. Qed.

Lemma total_losses_opp (fdf : DataFrame) :
  (total_losses fdf == - Qsum (map Profit (loss_df fdf)))%Q.
Proof.
  unfold total_losses. fold (loss_df fdf). apply Qabs_neg, Qsum_nonpos.
  intros x Hx. apply in_map_iff in Hx. destruct Hx as [r [<- Hr]].
  apply loss_df_In in Hr. now apply Qlt_le_weak.
Qed.

Lemma nunique_length (l : list string) : (nunique l <= List.length l)%nat.
Proof.
  unfold nunique, unique. induction l as [| x l IH]; simpl; [lia |].
  pose proof (filter_length_le (fun y => negb (String.eqb y x))
                (distinct String.eqb l)).
  lia.
Qed.

Lemma nunique_positive (l : list string) : l <> [] -> (1 <= nunique l)%nat.
Proof. destruct l; [congruence |]. intros _. unfold nunique. simpl. lia. Qed.

(** X9. Total losses is never negative and is zero exactly when no record
    has a negative profit; the number of orders is at most the number of
    records, and zero only for the empty table. *)
Theorem key_metrics_bounds (fdf : DataFrame) :
  (0 <= total_losses fdf)%Q /\
  ((total_losses fdf == 0)%Q <-> forall r, In r fdf -> (0 <= Profit r)%Q) /\
  (total_orders fdf <= List.length fdf)%nat /\
  (total_orders fdf = 0%nat <-> fdf = []).
Proof.
  split; [apply Qabs_nonneg |]. split.
  - rewrite total_losses_opp. split.
    + intros Hz r Hr. apply Qnot_lt_le. intros Hneg.
      assert (Hl : (Qsum (map Profit (loss_df fdf)) < 0)%Q).
      { apply Qsum_negative.
        - intros Hnil. apply map_eq_nil in Hnil.
          assert (Hin : In r (loss_df fdf)) by now apply loss_df_In.
          rewrite Hnil in Hin. destruct Hin.
        - intros x Hx. apply in_map_iff in Hx. destruct Hx as [r' [<- Hr']].
          now apply loss_df_In in Hr'. }
      lra.
    + intros Hall. assert (Hnil : loss_df fdf = []).
      { apply filter_none. intros r Hr.
        apply not_true_iff_false. rewrite Qltb_lt.
        apply Qle_not_lt. now apply Hall. }
      rewrite Hnil. reflexivity.
  - unfold total_orders. split.
    + rewrite <- (length_map Order_ID fdf). apply nunique_length.
    + split.
      * intros H0. destruct fdf as [| r fdf]; [reflexivity |].
        pose proof (nunique_positive (map Order_ID (r :: fdf))) as Hp.
        simpl in Hp. specialize (Hp ltac:(discriminate)). simpl in H0. lia.
      * intros ->. reflexivity.
Qed.

Section LossRows.

Variable key : Row -> string.
Variable ldf : DataFrame.
Hypothesis all_losses : forall r, In r ldf -> (Profit r < 0)%Q.

Lemma loss_group_negative (kg : string * DataFrame) :
  In kg (groupby String.eqb String.leb key ldf) ->
  (Qsum (map Profit (snd kg)) < 0)%Q.
Proof.
  intros Hkg.
  destruct (groupby_nonempty String.eqb String.leb String.eqb_eq key ldf kg Hkg)
    as [r [Hr _]].
  apply (groupby_In String.eqb String.leb key) in Hkg. destruct Hkg as [_ Hg].
  apply Qsum_negative.
  - intros Hnil. apply map_eq_nil in Hnil. rewrite Hnil in Hr. destruct Hr.
  - intros x Hx. apply in_map_iff in Hx. destruct Hx as [r' [<- Hr']].
    apply all_losses. rewrite Hg in Hr'.
    now apply (group_In String.eqb String.eqb_eq key) in Hr'.
Qed.

Lemma loss_row_positive (row : LossRow) :
  In row (map loss_row (groupby String.eqb String.leb key ldf)) ->
  (l_Profit row < 0)%Q /\ (l_Losses row == - l_Profit row)%Q /\
  (0 < l_Losses row)%Q.
Proof.
  rewrite in_map_iff. intros [kg [<- Hkg]].
  pose proof (loss_group_negative kg Hkg) as Hneg.
  unfold loss_row. cbn [l_Profit l_Losses].
  assert (Habs : (Qabs (Qsum (map Profit (snd kg)))
                  == - Qsum (map Profit (snd kg)))%Q)
    by (apply Qabs_neg; now apply Qlt_le_weak).
  split; [exact Hneg |]. split; [exact Habs |]. rewrite Habs. lra.
Qed.

End LossRows.

Lemma empty_nil (df : DataFrame) : empty df = true <-> df = [].
Proof. destruct df; simpl; split; congruence. Qed.

Lemma loss_df_nil (fdf : DataFrame) :
  loss_df fdf = [] <-> forall r, In r fdf -> (0 <= Profit r)%Q.
Proof.
  split.
  - intros Hnil r Hr. apply Qnot_lt_le. intros Hneg.
    assert (Hin : In r (loss_df fdf)) by now apply loss_df_In.
    rewrite Hnil in Hin. destruct Hin.
  - intros Hall. apply filter_none. intros r Hr.
    apply not_true_iff_false. rewrite Qltb_lt.
    apply Qle_not_lt. now apply Hall.
Qed.

(** X10. The Loss Analysis section shows its note exactly when no record
    of the filtered table has a negative profit.  Otherwise it shows the
    two charts, and then: there is at least one category; every row shown
    has a negative summed profit and a positive loss, its negation; the
    categories come in descending order of loss; and the states are at most
    five, in descending order of loss. *)
Theorem loss_analysis_consistent (fdf : DataFrame) :
  (loss_analysis fdf = NoLossInfo no_loss_text <->
   forall r, In r fdf -> (0 <= Profit r)%Q) /\
  (forall by_category by_state,
      loss_analysis fdf = LossCharts by_category by_state ->
      by_category <> [] /\
      Descending l_Losses by_category /\
      Descending l_Losses by_state /\
      (List.length by_state <= 5)%nat /\
      (forall row, In row by_category \/ In row by_state ->
                   (l_Profit row < 0)%Q /\
                   (l_Losses row == - l_Profit row)%Q /\
                   (0 < l_Losses row)%Q)).
Proof.
  unfold loss_analysis.
  assert (Hall : forall r, In r (loss_df fdf) -> (Profit r < 0)%Q)
    by (intros r Hr; now apply loss_df_In in Hr).
  destruct (empty (loss_df fdf)) eqn:E; cbn [negb].
  - apply empty_nil in E. split.
    + split; [intros _; now apply loss_df_nil | reflexivity].
    + intros ? ? H. discriminate.
  - split.
    + split; [discriminate |]. intros H. apply loss_df_nil, empty_nil in H.
      congruence.
    + intros by_category by_state H. injection H as <- <-.
      unfold category_losses, top_5_loss_states, nlargest, state_losses.
      set (cat := map loss_row (groupby String.eqb String.leb Category (loss_df fdf))).
      set (st := map loss_row (groupby String.eqb String.leb State (loss_df fdf))).
      destruct (firstn_sort_by_desc l_Losses 5 st) as (Hlen & Hdesc & Hperm & _).
      split; [| split; [| split; [| split]]].
      * intros Hnil.
        pose proof (Permutation_length (sort_by_desc_Permutation l_Losses cat)) as Hl.
        rewrite Hnil in Hl. unfold cat in Hl.
        rewrite length_map in Hl. unfold groupby in Hl. rewrite length_map in Hl.
        destruct (loss_df fdf) as [| r ldf] eqn:El; [discriminate |].
        assert (Hk : In (Category r)
                       (group_keys String.eqb String.leb Category (r :: ldf))).
        { apply (group_keys_In String.eqb String.leb String.eqb_eq).
          exists r. split; [now left | reflexivity]. }
        destruct (group_keys String.eqb String.leb Category (r :: ldf));
          [destruct Hk | discriminate].
      * apply sort_by_desc_Descending.
      * exact Hdesc.
      * rewrite Hlen. apply Nat.le_min_l.
      * intros row [Hrow | Hrow].
        -- apply (loss_row_positive Category (loss_df fdf) Hall).
           now apply (Permutation_in _ (sort_by_desc_Permutation l_Losses cat)).
        -- apply (loss_row_positive State (loss_df fdf) Hall).
           apply (Permutation_in _ (sort_by_desc_Permutation l_Losses st)).
           now apply (firstn_In 5).
Qed.

(** ** Tables of the charts *)

Lemma NoDup_firstn {B : Type} (n : nat) (l : list B) :
  NoDup l -> NoDup (firstn n l).
Proof.
  intros H. rewrite <- (firstn_skipn n l) in H.
  now apply NoDup_app_remove_r in H.
Qed.

Section TopRows.

Context {A : Type} (name : A -> string) (value : A -> Q).

(** The first [n] rows in descending order of a column, of a table with
    one row per name. *)
Lemma top_rows (n : nat) (l : list A) :
  NoDup (map name l) ->
  List.length (firstn n (sort_by_desc value l)) = Nat.min n (List.length l) /\
  Descending value (firstn n (sort_by_desc value l)) /\
  (forall a, In a (firstn n (sort_by_desc value l)) -> In a l) /\
  NoDup (map name (firstn n (sort_by_desc value l))) /\
  (forall a b,
      In a l ->
      ~ In (name a) (map name (firstn n (sort_by_desc value l))) ->
      In b (firstn n (sort_by_desc value l)) ->
      (value a <= value b)%Q).
Proof.
  intros Hnd.
  destruct (firstn_sort_by_desc value n l) as (Hlen & Hdesc & Hperm & Hdom).
  pose proof (sort_by_desc_Permutation value l) as Hp.
  split; [exact Hlen |]. split; [exact Hdesc |]. split; [| split].
  - intros a Ha. apply (Permutation_in _ Hp). now apply (firstn_In n).
  - rewrite <- firstn_map. apply NoDup_firstn.
    apply (Permutation_NoDup (Permutation_sym (Permutation_map name Hp)) Hnd).
  - intros a b Ha Hout Hb. apply Hdom; [exact Hb |].
    apply (Permutation_in _ (Permutation_sym Hperm)) in Ha.
    apply in_app_or in Ha. destruct Ha as [Ha | Ha]; [| exact Ha].
    exfalso. apply Hout. now apply in_map.
Qed.

End TopRows.

Lemma groupby_length (key : Row -> string) (df : DataFrame) :
  List.length (groupby String.eqb String.leb key df) = nunique (map key df).
Proof.
  unfold groupby, group_keys, nunique, unique. rewrite length_map.
  apply Permutation_length, sort_keys_Permutation.
Qed.

Lemma sales_profit_by_keys (key : Row -> string) (df : DataFrame) :
  map sp_key (sales_profit_by String.eqb String.leb key df)
  = group_keys String.eqb String.leb key df.
Proof.
  unfold sales_profit_by. rewrite map_map. cbn [sp_key sales_profit_row].
  apply (groupby_keys String.eqb String.leb key).
Qed.

Lemma sales_profit_by_row (key : Row -> string) (df : DataFrame)
    (row : SalesProfit) :
  In row (sales_profit_by String.eqb String.leb key df) ->
  (exists r, In r df /\ key r = sp_key row) /\
  sp_Sales row
  = Qsum (map Sales (filter (fun r => String.eqb (key r) (sp_key row)) df)) /\
  sp_Profit row
  = Qsum (map Profit (filter (fun r => String.eqb (key r) (sp_key row)) df)).
Proof.
  unfold sales_profit_by. rewrite in_map_iff. intros [kg [<- Hkg]].
  apply (groupby_In String.eqb String.leb key) in Hkg. destruct Hkg as [Hk Hg].
  apply (group_keys_In String.eqb String.leb String.eqb_eq key) in Hk.
  cbn [sp_key sp_Sales sp_Profit sales_profit_row]. rewrite Hg.
  split; [exact Hk |]. split; reflexivity.
Qed.

Lemma sales_profit_by_shape (key : Row -> string) (fdf : DataFrame) :
  NoDup (map sp_key (sales_profit_by String.eqb String.leb key fdf)) /\
  KeysAscending (map sp_key (sales_profit_by String.eqb String.leb key fdf)) /\
  (forall k, In k (map sp_key (sales_profit_by String.eqb String.leb key fdf))
             <-> exists r, In r fdf /\ key r = k) /\
  List.length (sales_profit_by String.eqb String.leb key fdf)
  = nunique (map key fdf).
Proof.
  rewrite sales_profit_by_keys.
  split; [apply group_keys_NoDup; exact String.eqb_eq |].
  split; [apply sort_keys_ascending |].
  split; [intros k; apply group_keys_In; exact String.eqb_eq |].
  unfold sales_profit_by. rewrite length_map. apply groupby_length.
Qed.

(** X11. The tables of sales and profit by category, by region and by
    state each have one row for each value of their column that occurs in
    the filtered table and no other row, in ascending order of that value;
    a row holds the sums of sales and of profit over the records with its
    value and the margin of these two sums. *)
Theorem sales_by_column_tables (fdf : DataFrame) :
  summed_by Category fdf (category_sales fdf) /\
  summed_by Region fdf (region_sales fdf) /\
  summed_by State fdf (state_metrics fdf).
Proof.
  assert (Hgen : forall key,
             summed_by key fdf (sales_profit_by String.eqb String.leb key fdf)).
  { intros key.
    destruct (sales_profit_by_shape key fdf) as (H1 & H2 & H3 & H4).
    unfold summed_by. repeat (split; [assumption |]).
    intros row Hrow.
    destruct (sales_profit_by_row key fdf row Hrow) as (_ & Hs & Hp).
    split; [exact Hs |]. split; [exact Hp |].
    now apply (in_sales_profit_by String.eqb String.leb key fdf). }
  split; [apply Hgen | split; apply Hgen].
Qed.

Lemma customer_sales_names (fdf : DataFrame) :
  map c_Customer_Name (customer_sales fdf)
  = group_keys String.eqb String.leb Customer_Name fdf.
Proof.
  unfold customer_sales. rewrite map_map. cbn [c_Customer_Name customer_row].
  apply (groupby_keys String.eqb String.leb Customer_Name).
Qed.

Lemma customer_sales_In (fdf : DataFrame) (row : CustomerRow) :
  In row (customer_sales fdf) <->
  (exists r, In r fdf /\ Customer_Name r = c_Customer_Name row) /\
  row = customer_row (c_Customer_Name row,
                      group String.eqb Customer_Name fdf (c_Customer_Name row)).
Proof.
  unfold customer_sales. rewrite in_map_iff. split.
  - intros [kg [<- Hkg]].
    apply (groupby_In String.eqb String.leb Customer_Name) in Hkg.
    destruct Hkg as [Hk Hg].
    apply (group_keys_In String.eqb String.leb String.eqb_eq) in Hk.
    cbn [c_Customer_Name customer_row fst]. split; [exact Hk |].
    unfold customer_row. cbn [fst snd]. now rewrite Hg.
  - intros [Hk Hrow].
    exists (c_Customer_Name row,
            group String.eqb Customer_Name fdf (c_Customer_Name row)).
    split; [now symmetry |].
    apply (groupby_In String.eqb String.leb Customer_Name). cbn [fst snd].
    split; [| reflexivity].
    now apply (group_keys_In String.eqb String.leb String.eqb_eq).
Qed.

(** X12. The Top 10 Customers table has ten rows, or one per customer when
    the filtered table has fewer than ten customers; no customer has two
    rows; the rows are in descending order of sales; each holds the sums of
    sales and of profit over the records of its customer; and no customer
    left out has more sales than a customer shown. *)
Theorem top_customers_largest (fdf : DataFrame) :
  List.length (top_customers fdf)
  = Nat.min 10 (nunique (map Customer_Name fdf)) /\
  Descending c_Sales (top_customers fdf) /\
  NoDup (map c_Customer_Name (top_customers fdf)) /\
  (forall row, In row (top_customers fdf) ->
     (exists r, In r fdf /\ Customer_Name r = c_Customer_Name row) /\
     c_Sales row
     = Qsum (map Sales (filter (fun r => String.eqb (Customer_Name r)
                                           (c_Customer_Name row)) fdf)) /\
     c_Profit row
     = Qsum (map Profit (filter (fun r => String.eqb (Customer_Name r)
                                            (c_Customer_Name row)) fdf))) /\
  (forall r row,
     In r fdf ->
     ~ In (Customer_Name r) (map c_Customer_Name (top_customers fdf)) ->
     In row (top_customers fdf) ->
     (Qsum (map Sales (filter (fun r' => String.eqb (Customer_Name r')
                                           (Customer_Name r)) fdf))
      <= c_Sales row)%Q).
Proof.
  unfold top_customers, head.
  assert (Hnd : NoDup (map c_Customer_Name (customer_sales fdf))).
  { rewrite customer_sales_names. apply group_keys_NoDup. exact String.eqb_eq. }
  destruct (top_rows c_Customer_Name c_Sales 10 (customer_sales fdf) Hnd)
    as (Hlen & Hdesc & Hin & Hnames & Hdom).
  split; [| split; [exact Hdesc | split; [exact Hnames | split]]].
  - rewrite Hlen. unfold customer_sales. rewrite length_map.
    now rewrite groupby_length.
  - intros row Hrow. apply Hin, customer_sales_In in Hrow.
    destruct Hrow as [Hk Hrow]. split; [exact Hk |].
    split; rewrite Hrow at 1; reflexivity.
  - intros r row Hr Hout Hrow.
    set (a := customer_row (Customer_Name r,
                            group String.eqb Customer_Name fdf (Customer_Name r))).
    apply (Hdom a row); [| exact Hout | exact Hrow].
    apply customer_sales_In. split; [| reflexivity].
    exists r. split; [exact Hr | reflexivity].
Qed.

(** X13. The Top 5 States table has five rows of the state table, or all
    of them when fewer than five states occur, in descending order of
    sales, no state twice, and no state left out has more sales than a
    state shown. *)
Theorem top_5_states_largest (fdf : DataFrame) :
  List.length (top_5_states fdf) = Nat.min 5 (nunique (map State fdf)) /\
  Descending sp_Sales (top_5_states fdf) /\
  NoDup (map sp_key (top_5_states fdf)) /\
  (forall row, In row (top_5_states fdf) -> In row (state_metrics fdf)) /\
  (forall other row,
     In other (state_metrics fdf) ->
     ~ In (sp_key other) (map sp_key (top_5_states fdf)) ->
     In row (top_5_states fdf) ->
     (sp_Sales other <= sp_Sales row)%Q).
Proof.
  unfold top_5_states, nlargest.
  destruct (sales_profit_by_shape State fdf) as (Hnd & _ & _ & Hlen').
  destruct (top_rows sp_key sp_Sales 5 (state_metrics fdf) Hnd)
    as (Hlen & Hdesc & Hin & Hnames & Hdom).
  split; [| split; [exact Hdesc | split; [exact Hnames | split]]].
  - rewrite Hlen. unfold state_metrics. now rewrite Hlen'.
  - exact Hin.
  - intros other row. apply Hdom.
Qed.

Lemma StronglySorted_map {A B : Type} (R : A -> A -> Prop) (S : B -> B -> Prop)
    (f : A -> B) (l : list A) :
  (forall a b, R a b -> S (f a) (f b)) ->
  StronglySorted R l -> StronglySorted S (map f l).
Proof.
  intros Hf. induction 1 as [| a l Hl IH Ha]; simpl; constructor; [exact IH |].
  rewrite Forall_forall in *. intros b Hb. apply in_map_iff in Hb.
  destruct Hb as [x [<- Hx]]. apply Hf. now apply Ha.
Qed.

(** *** Orders by ship mode *)

Lemma Qsum_bounds (l : list Q) (lo hi : Q) :
  (forall x, In x l -> (lo <= x <= hi)%Q) ->
  (inject_Z (Z.of_nat (List.length l)) * lo <= Qsum l
   <= inject_Z (Z.of_nat (List.length l)) * hi)%Q.
Proof.
  induction l as [| x l IH]; intros H.
  - cbn [List.length Qsum fold_right Z.of_nat]. change (inject_Z 0) with 0%Q. lra.
  - cbn [List.length Qsum fold_right]. fold (Qsum l).
    rewrite Nat2Z.inj_succ, <- Z.add_1_r, inject_Z_plus.
    destruct (H x (or_introl eq_refl)) as [Hlo Hhi].
    destruct (IH (fun y Hy => H y (or_intror Hy))) as [IHlo IHhi].
    change (inject_Z 1) with 1%Q.
    split.
    + rewrite Qmult_plus_distr_l. lra.
    + rewrite Qmult_plus_distr_l. lra.
Qed.

Lemma mean_bounds (l : list Q) (lo hi : Q) :
  l <> [] ->
  (forall x, In x l -> (lo <= x <= hi)%Q) ->
  exists q, mean l = Finite q /\ (lo <= q <= hi)%Q.
Proof.
  intros Hne H. destruct l as [| x l]; [congruence |].
  exists (Qsum (x :: l) / inject_Z (Z.of_nat (List.length (x :: l))))%Q.
  split; [reflexivity |].
  destruct (Qsum_bounds (x :: l) lo hi H) as [Hlo Hhi].
  assert (Hpos : (0 < inject_Z (Z.of_nat (List.length (x :: l))))%Q).
  { change 0%Q with (inject_Z 0). rewrite <- Zlt_Qlt. simpl List.length. lia. }
  split.
  - apply Qle_shift_div_l; [exact Hpos |]. now rewrite Qmult_comm.
  - apply Qle_shift_div_r; [exact Hpos |]. now rewrite Qmult_comm.
Qed.

Lemma shipmode_orders_In (fdf : DataFrame) (row : ShipModeRow) :
  In row (shipmode_orders fdf) ->
  (exists r, In r fdf /\ Ship_Mode r = s_Ship_Mode row) /\
  row = shipmode_row (s_Ship_Mode row,
                      group String.eqb Ship_Mode fdf (s_Ship_Mode row)).
Proof.
  unfold shipmode_orders. rewrite in_map_iff. intros [kg [<- Hkg]].
  apply (groupby_In String.eqb String.leb Ship_Mode) in Hkg.
  destruct Hkg as [Hk Hg].
  apply (group_keys_In String.eqb String.leb String.eqb_eq) in Hk.
  cbn [s_Ship_Mode shipmode_row fst]. split; [exact Hk |].
  unfold shipmode_row. cbn [fst snd]. now rewrite Hg.
Qed.

Lemma nunique_incl (l l' : list string) :
  incl l l' -> (nunique l <= nunique l')%nat.
Proof.
  intros H. unfold nunique. apply NoDup_incl_length.
  - apply distinct_NoDup. exact String.eqb_eq.
  - intros x Hx. apply unique_In. apply H. exact (proj1 (unique_In l x) Hx).
Qed.

Lemma orders_by_group (fdf : DataFrame) :
  (total_orders fdf
   <= list_sum (map s_Total_Orders (shipmode_orders fdf)))%nat.
Proof.
  unfold shipmode_orders. rewrite map_map. cbn [s_Total_Orders shipmode_row].
  unfold nunique at 1.
  rewrite <- (length_flat_map
                (fun kg : string * DataFrame => unique (map Order_ID (snd kg)))).
  unfold total_orders, nunique. apply NoDup_incl_length.
  - apply distinct_NoDup. exact String.eqb_eq.
  - intros x Hx. apply (proj1 (unique_In _ x)), in_map_iff in Hx.
    destruct Hx as [r [<- Hr]].
    apply in_flat_map.
    exists (Ship_Mode r, group String.eqb Ship_Mode fdf (Ship_Mode r)). split.
    + apply (groupby_In String.eqb String.leb Ship_Mode). cbn [fst snd].
      split; [| reflexivity].
      apply (group_keys_In String.eqb String.leb String.eqb_eq).
      now exists r.
    + cbn [snd]. apply unique_In, in_map.
      apply (group_In String.eqb String.eqb_eq). now split.
Qed.

(** X14. The table of orders by ship mode is sorted in descending order of
    the number of orders.  A row counts at least one order, at most as many
    as its ship mode has records and at most the Total Orders metric; its
    average processing time is a number (never [nan]) that lies between
    any two bounds on the processing times of its records.  An order that
    has records with several ship modes is counted once for each, so the
    counts add up to the Total Orders metric or more. *)
Theorem shipmode_orders_counts (fdf : DataFrame) :
  Permutation (shipmode_orders_sorted fdf) (shipmode_orders fdf) /\
  Descending (fun row => inject_Z (Z.of_nat (s_Total_Orders row)))
    (shipmode_orders_sorted fdf) /\
  (forall row, In row (shipmode_orders_sorted fdf) ->
     (1 <= s_Total_Orders row)%nat /\
     (s_Total_Orders row
      <= List.length (filter (fun r => String.eqb (Ship_Mode r) (s_Ship_Mode row))
                        fdf))%nat /\
     (s_Total_Orders row <= total_orders fdf)%nat /\
     exists q,
       s_Processing_Time row = Finite q /\
       forall lo hi,
         (forall r, In r fdf -> Ship_Mode r = s_Ship_Mode row ->
                    lo <= Processing_Time r <= hi) ->
         (inject_Z lo <= q <= inject_Z hi)%Q) /\
  (total_orders fdf
   <= list_sum (map s_Total_Orders (shipmode_orders_sorted fdf)))%nat.
Proof.
  pose proof (sort_by_desc_Permutation
                (fun row => inject_Z (Z.of_nat (s_Total_Orders row)))
                (shipmode_orders fdf)) as Hp.
  fold (shipmode_orders_sorted fdf) in Hp.
  split; [exact Hp |]. split; [apply sort_by_desc_Descending |]. split.
  - intros row Hrow. apply (Permutation_in _ Hp) in Hrow.
    apply shipmode_orders_In in Hrow. destruct Hrow as [[r [Hr Hmode]] Hrow].
    set (g := group String.eqb Ship_Mode fdf (s_Ship_Mode row)) in *.
    assert (Hg : In r g) by (apply (group_In String.eqb String.eqb_eq); now split).
    assert (Hcount : s_Total_Orders row = nunique (map Order_ID g))
      by (rewrite Hrow at 1; reflexivity).
    assert (Htime : s_Processing_Time row
                    = mean (map (fun r => inject_Z (Processing_Time r)) g))
      by (rewrite Hrow at 1; reflexivity).
    split; [| split; [| split]].
    + rewrite Hcount. apply nunique_positive.
      intros Hnil. apply map_eq_nil in Hnil. rewrite Hnil in Hg. destruct Hg.
    + rewrite Hcount. etransitivity; [apply nunique_length |].
      rewrite length_map. apply Nat.le_refl.
    + rewrite Hcount. apply nunique_incl. intros x Hx.
      apply in_map_iff in Hx. destruct Hx as [r' [<- Hr']].
      apply in_map. now apply (group_In String.eqb String.eqb_eq) in Hr'.
    + assert (Hne : map (fun r => inject_Z (Processing_Time r)) g <> []).
      { intros Hnil. apply map_eq_nil in Hnil. rewrite Hnil in Hg. destruct Hg. }
      destruct (mean (map (fun r => inject_Z (Processing_Time r)) g))
        as [q | | |] eqn:Em;
        try (destruct (mean_bounds _ 0 0 Hne) as [q' [Hq' _]];
             [| congruence];
             destruct (map (fun r => inject_Z (Processing_Time r)) g);
             [congruence | discriminate]).
      exists q. split; [exact Htime |]. intros lo hi Hb.
      destruct (mean_bounds _ (inject_Z lo) (inject_Z hi) Hne) as [q' [Hq' Hbounds]].
      * intros x Hx. apply in_map_iff in Hx. destruct Hx as [r' [<- Hr']].
        apply (group_In String.eqb String.eqb_eq) in Hr'. destruct Hr' as [Hin Hm].
        rewrite <- !Zle_Qle. now apply Hb.
      * rewrite Em in Hq'. injection Hq' as <-. exact Hbounds.
  - rewrite (Permutation_list_sum (Permutation_map s_Total_Orders Hp)).
    apply orders_by_group.
Qed.

(** *** Profit by category and sub-category *)

Lemma cat_subcat_profit_In (fdf : DataFrame) (kp : list string * Q) :
  In kp (cat_subcat_profit fdf) ->
  exists r,
    In r fdf /\
    fst kp = [Category r; Sub_Category r] /\
    snd kp
    = Qsum (map Profit
              (filter (fun r' => String.eqb (Category r') (Category r) &&
                                 String.eqb (Sub_Category r') (Sub_Category r))
                 fdf)).
Proof.
  unfold cat_subcat_profit, agg_sum, groupby_columns.
  rewrite in_map_iff. intros [kg [<- Hkg]].
  apply (groupby_In keys_eqb keys_leb) in Hkg. destruct Hkg as [Hk Hg].
  apply (group_keys_In keys_eqb keys_leb keys_eqb_eq) in Hk.
  destruct Hk as [r [Hr Hkey]]. exists r.
  destruct kg as [k g]. cbn [fst snd] in *. subst k g.
  split; [exact Hr |]. split; [reflexivity |].
  unfold group. do 2 f_equal.
  apply filter_ext. intros r'. simpl. now rewrite andb_true_r.
Qed.

Lemma cat_subcat_profit_keys (fdf : DataFrame) :
  map fst (cat_subcat_profit fdf)
  = group_keys keys_eqb keys_leb (key_of [Category; Sub_Category]) fdf.
Proof.
  unfold cat_subcat_profit, agg_sum, groupby_columns. rewrite map_map.
  cbn [fst]. apply (groupby_keys keys_eqb keys_leb).
Qed.

(** X15. The table of profit by category and sub-category comes in
    ascending order of profit; it has one row for each pair of category and
    sub-category that occurs in the filtered table and no other row; a row
    holds the sum of the profits of the records of its pair, and its label
    is the category, [ - ] and the sub-category. *)
Theorem cat_subcat_sorted_rows (fdf : DataFrame) :
  Ascending cs_Profit (cat_subcat_sorted fdf) /\
  NoDup (map (fun row => (cs_Category row, cs_Sub_Category row))
           (cat_subcat_sorted fdf)) /\
  (forall row, In row (cat_subcat_sorted fdf) ->
     (exists r, In r fdf /\ Category r = cs_Category row /\
                Sub_Category r = cs_Sub_Category row) /\
     cs_Profit row
     = Qsum (map Profit
               (filter (fun r => String.eqb (Category r) (cs_Category row) &&
                                 String.eqb (Sub_Category r) (cs_Sub_Category row))
                  fdf)) /\
     cs_Category_SubCategory row
     = (cs_Category row ++ " - " ++ cs_Sub_Category row)%string) /\
  (forall r, In r fdf ->
     exists row, In row (cat_subcat_sorted fdf) /\
                 cs_Category row = Category r /\
                 cs_Sub_Category row = Sub_Category r).
Proof.
  unfold cat_subcat_sorted.
  pose proof (sort_by_asc_Permutation snd (cat_subcat_profit fdf)) as Hp.
  split; [| split; [| split]].
  - apply (StronglySorted_map (fun a b : list string * Q => (snd a <= snd b)%Q)).
    + intros a b H. exact H.
    + apply (sort_by_asc_Ascending snd).
  - apply (NoDup_map_inv (fun cs : string * string => [fst cs; snd cs])).
    rewrite !map_map. cbn [fst snd cs_Category cs_Sub_Category cat_subcat_row].
    rewrite (map_ext_in _ fst).
    + apply (Permutation_NoDup (Permutation_sym (Permutation_map fst Hp))).
      rewrite cat_subcat_profit_keys. apply group_keys_NoDup. exact keys_eqb_eq.
    + intros kp Hkp. apply (Permutation_in _ Hp) in Hkp.
      destruct (cat_subcat_profit_In fdf kp Hkp) as [r (_ & Hk & _)].
      now rewrite Hk.
  - intros row Hrow. apply in_map_iff in Hrow. destruct Hrow as [kp [<- Hkp]].
    apply (Permutation_in _ Hp) in Hkp.
    destruct (cat_subcat_profit_In fdf kp Hkp) as [r (Hr & Hk & Hsum)].
    unfold cat_subcat_row.
    cbn [cs_Category cs_Sub_Category cs_Profit cs_Category_SubCategory].
    rewrite Hk. cbn [nth]. split; [| split; [exact Hsum | reflexivity]].
    exists r. auto.
  - intros r Hr.
    assert (Hk : In [Category r; Sub_Category r] (map fst (cat_subcat_profit fdf))).
    { rewrite cat_subcat_profit_keys.
      apply (group_keys_In keys_eqb keys_leb keys_eqb_eq). now exists r. }
    apply in_map_iff in Hk. destruct Hk as [kp [Hk Hkp]].
    exists (cat_subcat_row kp). split.
    + apply in_map. now apply (Permutation_in _ (Permutation_sym Hp)).
    + unfold cat_subcat_row. cbn [cs_Category cs_Sub_Category]. rewrite Hk.
      split; reflexivity.
Qed.

(** *** Sales by sub-category *)

Lemma sort_values_desc_sort_by {K : Type} (l : list (K * Q)) :
  sort_values_desc l = sort_by_desc snd l.
Proof.
  unfold sort_values_desc, sort_by_desc.
  induction l as [| x l IH]; simpl; [reflexivity |]. rewrite IH.
  generalize (fold_right (insert_by_desc snd) [] l). intros l'.
  induction l' as [| y l' IH']; simpl; [reflexivity |]. now rewrite IH'.
Qed.

(** X16. The table of sales by sub-category comes in descending order of
    sales and has one row for each sub-category that occurs in the filtered
    table and no other row; a row holds the sum of the sales of the records
    of its sub-category. *)
Theorem subcategory_sales_ranked (fdf : DataFrame) :
  Descending snd (subcategory_sales fdf) /\
  NoDup (map fst (subcategory_sales fdf)) /\
  List.length (subcategory_sales fdf) = nunique (map Sub_Category fdf) /\
  (forall k, In k (map fst (subcategory_sales fdf))
             <-> exists r, In r fdf /\ Sub_Category r = k) /\
  (forall row, In row (subcategory_sales fdf) ->
     snd row
     = Qsum (map Sales
               (filter (fun r => String.eqb (Sub_Category r) (fst row)) fdf))).
Proof.
  unfold subcategory_sales. rewrite sort_values_desc_sort_by.
  set (table := agg_sum Sales (groupby String.eqb String.leb Sub_Category fdf)).
  pose proof (sort_by_desc_Permutation snd table) as Hp.
  assert (Hkeys : map fst table
                  = group_keys String.eqb String.leb Sub_Category fdf).
  { unfold table, agg_sum. rewrite map_map. cbn [fst].
    apply (groupby_keys String.eqb String.leb). }
  split; [apply sort_by_desc_Descending |]. split; [| split; [| split]].
  - apply (Permutation_NoDup (Permutation_sym (Permutation_map fst Hp))).
    rewrite Hkeys. apply group_keys_NoDup. exact String.eqb_eq.
  - rewrite (Permutation_length Hp). unfold table, agg_sum.
    rewrite length_map. apply groupby_length.
  - intros k. rewrite <- (group_keys_In String.eqb String.leb String.eqb_eq).
    rewrite <- Hkeys. split; apply Permutation_in.
    + now apply Permutation_map.
    + now apply Permutation_map, Permutation_sym.
  - intros row Hrow. apply (Permutation_in _ Hp) in Hrow.
    unfold table, agg_sum in Hrow. apply in_map_iff in Hrow.
    destruct Hrow as [kg [<- Hkg]].
    apply (groupby_In String.eqb String.leb Sub_Category) in Hkg.
    destruct Hkg as [_ Hg]. destruct kg as [k g]. cbn [fst snd] in *.
    now subst g.
Qed.

(** *** The monthly trend in time order *)

Lemma month_end_increasing (a b : Z) :
  a < b -> Calendar.month_end a < Calendar.month_end b.
Proof.
  intros Hab.
  destruct (Z.lt_ge_cases (Calendar.month_end a) (Calendar.month_end b))
    as [H | H]; [exact H |].
  apply CalendarFacts.month_index_monotone in H.
  destruct (CalendarFacts.month_end_last_day a) as [Ha _].
  destruct (CalendarFacts.month_end_last_day b) as [Hb _].
  rewrite Ha, Hb in H. lia.
Qed.

Lemma seq_increasing (s n : nat) : StronglySorted lt (seq s n).
Proof.
  revert s. induction n as [| n IH]; intros s; simpl; constructor; [apply IH |].
  rewrite Forall_forall. intros x Hx. apply in_seq in Hx. lia.
Qed.

Lemma Zrange_increasing (lo : Z) (n : nat) : StronglySorted Z.lt (Zrange lo n).
Proof.
  unfold Zrange. apply (StronglySorted_map lt); [| apply seq_increasing].
  intros a b H. lia.
Qed.

Lemma seq_consecutive (l1 l2 : list nat) (a b : nat) :
  forall s n, seq s n = l1 ++ a :: b :: l2 -> b = S a.
Proof.
  induction l1 as [| x l1 IH]; intros s n H.
  - destruct n as [| [| n]]; simpl in H; try discriminate.
    injection H as <- <- _. reflexivity.
  - destruct n as [| n]; simpl in H; [discriminate |].
    injection H as _ H. now apply (IH (S s) n).
Qed.

Lemma map_consecutive {A B : Type} (f : A -> B) (l : list A)
    (l1 l2 : list B) (a b : B) :
  map f l = l1 ++ a :: b :: l2 ->
  exists l1' a' b' l2',
    l = l1' ++ a' :: b' :: l2' /\ f a' = a /\ f b' = b.
Proof.
  intros H. apply map_eq_app in H. destruct H as (l1' & l' & -> & _ & H).
  destruct l' as [| a' [| b' l2']]; simpl in H; try discriminate.
  injection H as Ha Hb _. now exists l1', a', b', l2'.
Qed.

Lemma Zrange_consecutive (lo : Z) (n : nat) (l1 l2 : list Z) (a b : Z) :
  Zrange lo n = l1 ++ a :: b :: l2 -> b = a + 1.
Proof.
  unfold Zrange. intros H. apply map_consecutive in H.
  destruct H as (l1' & a' & b' & l2' & Hseq & <- & <-).
  apply seq_consecutive in Hseq. lia.
Qed.

Lemma month_bins_consecutive (fdf : DataFrame) (l1 l2 : list Z) (a b : Z) :
  month_bins fdf = l1 ++ a :: b :: l2 -> b = a + 1.
Proof.
  destruct fdf as [| first rest]; simpl.
  - destruct l1; discriminate.
  - apply Zrange_consecutive.
Qed.

Lemma month_end_step (mi : Z) :
  28 <= Calendar.month_end (mi + 1) - Calendar.month_end mi <= 31.
Proof.
  unfold Calendar.month_end.
  pose proof (CalendarFacts.month_length (mi + 1)) as H.
  pose proof (CalendarFacts.days_in_month_range
                ((mi + 1) / 12) ((mi + 1) mod 12 + 1)) as Hr.
  rewrite <- H in Hr.
  generalize dependent (Calendar.month_start (mi + 1 + 1)).
  generalize (Calendar.month_start (mi + 1)). intros. lia.
Qed.

Lemma monthly_sales_labels (fdf : DataFrame) :
  map m_Order_Date (monthly_sales fdf) = map Calendar.month_end (month_bins fdf).
Proof. unfold monthly_sales. rewrite map_map. reflexivity. Qed.

Lemma Zrange_length (lo : Z) (n : nat) : List.length (Zrange lo n) = n.
Proof. unfold Zrange. now rewrite length_map, length_seq. Qed.

(** X17. The rows of the monthly trend come in time order without a gap:
    each label is a later date than the one before it, the month end of the
    next month, 28 to 31 days on.  A non-empty filtered table gives as many
    rows as there are months from the month of its earliest order date to
    the month of its latest. *)
Theorem monthly_sales_chronological (fdf : DataFrame) :
  StronglySorted Z.lt (map m_Order_Date (monthly_sales fdf)) /\
  (forall l1 a b l2,
      map m_Order_Date (monthly_sales fdf) = l1 ++ a :: b :: l2 ->
      Calendar.month_index b = Calendar.month_index a + 1 /\
      28 <= b - a <= 31) /\
  (forall first rest,
      fdf = first :: rest ->
      Z.of_nat (List.length (monthly_sales fdf))
      = Calendar.month_index (max_date first rest)
        - Calendar.month_index (min_date first rest) + 1 /\
      (1 <= List.length (monthly_sales fdf))%nat).
Proof.
  split; [| split].
  - rewrite monthly_sales_labels.
    apply (StronglySorted_map Z.lt); [exact month_end_increasing |].
    destruct fdf as [| first rest]; [constructor | apply Zrange_increasing].
  - intros l1 a b l2 H. rewrite monthly_sales_labels in H.
    apply map_consecutive in H.
    destruct H as (l1' & mi & mj & l2' & Hbins & <- & <-).
    apply month_bins_consecutive in Hbins. subst mj.
    destruct (CalendarFacts.month_end_last_day mi) as [Hi _].
    destruct (CalendarFacts.month_end_last_day (mi + 1)) as [Hj _].
    split; [now rewrite Hi, Hj | apply month_end_step].
  - intros first rest ->. unfold monthly_sales. rewrite length_map.
    cbn [month_bins]. rewrite Zrange_length.
    assert (Hle : Calendar.month_index (min_date first rest)
                  <= Calendar.month_index (max_date first rest)).
    { apply CalendarFacts.month_index_monotone.
      pose proof (order_date_bounds first rest first (or_introl eq_refl)). lia. }
    generalize dependent (Calendar.month_index (max_date first rest)).
    generalize (Calendar.month_index (min_date first rest)). intros. lia.
Qed.

(** *** Processing time and the calendar *)

Lemma month_index_days_from_civil (c : Calendar.Civil) :
  Calendar.valid c = true ->
  Calendar.month_index (Calendar.days_from_civil c) = Calendar.civil_month_index c.
Proof.
  intros H. unfold Calendar.month_index.
  now rewrite CalendarFacts.civil_from_days_from_civil.
Qed.

Lemma days_from_civil_same_month (a b : Calendar.Civil) :
  Calendar.year a = Calendar.year b ->
  Calendar.month a = Calendar.month b ->
  Calendar.days_from_civil a - Calendar.days_from_civil b
  = Calendar.day a - Calendar.day b.
Proof.
  destruct a as [ya ma da], b as [yb mb db]. simpl. intros -> ->.
  rewrite (CalendarFacts.days_from_civil_day yb mb da).
  rewrite (CalendarFacts.days_from_civil_day yb mb db).
  generalize
    (Calendar.days_from_civil
       {| Calendar.year := yb; Calendar.month := mb; Calendar.day := 1 |}).
  intros base. lia.
Qed.

Lemma days_from_civil_increasing (a b : Calendar.Civil) :
  Calendar.valid a = true -> Calendar.valid b = true ->
  Calendar.days_from_civil a < Calendar.days_from_civil b -> civil_before a b.
Proof.
  intros Ha Hb Hlt.
  pose proof (CalendarFacts.month_index_monotone _ _ (Z.lt_le_incl _ _ Hlt)) as Hm.
  rewrite (month_index_days_from_civil a Ha) in Hm.
  rewrite (month_index_days_from_civil b Hb) in Hm.
  unfold Calendar.civil_month_index in Hm.
  destruct (CalendarFacts.valid_bounds a Ha) as [Hma _].
  destruct (CalendarFacts.valid_bounds b Hb) as [Hmb _].
  unfold civil_before.
  destruct (Z.eq_dec (Calendar.year a) (Calendar.year b)) as [Hy | Hy];
    [| left; lia].
  destruct (Z.eq_dec (Calendar.month a) (Calendar.month b)) as [Hmo | Hmo];
    [| right; split; [exact Hy | left; lia]].
  right. split; [exact Hy |]. right. split; [exact Hmo |].
  pose proof (days_from_civil_same_month a b Hy Hmo) as Hd.
  generalize dependent (Calendar.days_from_civil a).
  generalize dependent (Calendar.days_from_civil b).
  intros. lia.
Qed.

Lemma civil_before_asymmetric (a b : Calendar.Civil) :
  civil_before a b -> civil_before b a -> False.
Proof. unfold civil_before. lia. Qed.

Lemma days_from_civil_order (a b : Calendar.Civil) :
  Calendar.valid a = true -> Calendar.valid b = true ->
  (Calendar.days_from_civil a < Calendar.days_from_civil b <-> civil_before a b) /\
  (Calendar.days_from_civil a = Calendar.days_from_civil b <-> a = b).
Proof.
  intros Ha Hb.
  assert (Hinj : Calendar.days_from_civil a = Calendar.days_from_civil b -> a = b).
  { intros H.
    rewrite <- (CalendarFacts.civil_from_days_from_civil a Ha).
    rewrite <- (CalendarFacts.civil_from_days_from_civil b Hb).
    now rewrite H. }
  split; [| split; [exact Hinj | now intros ->]].
  split; [now apply days_from_civil_increasing |].
  intros Hab.
  destruct (Z.lt_trichotomy (Calendar.days_from_civil a) (Calendar.days_from_civil b))
    as [H | [H | H]]; [exact H | |].
  - apply Hinj in H. subst b. destruct (civil_before_asymmetric a a Hab Hab).
  - apply (days_from_civil_increasing b a Hb Ha) in H.
    destruct (civil_before_asymmetric a b Hab H).
Qed.

(** X18. A loaded line has processing time 0 exactly when its two cells
    spell the same date, a negative one exactly when the ship date is the
    earlier date of the calendar and a positive one exactly when the order
    date is; when both dates lie in the same month of the same year it is
    the difference of the two days of the month. *)
Theorem processing_time_sign (raw : RawRow) (row : Row) :
  load_row raw = Ok row ->
  (Processing_Time row = 0 <-> raw_Ship_Date raw = raw_Order_Date raw) /\
  (Processing_Time row < 0 <->
   civil_before (raw_Ship_Date raw) (raw_Order_Date raw)) /\
  (0 < Processing_Time row <->
   civil_before (raw_Order_Date raw) (raw_Ship_Date raw)) /\
  (Calendar.year (raw_Ship_Date raw) = Calendar.year (raw_Order_Date raw) ->
   Calendar.month (raw_Ship_Date raw) = Calendar.month (raw_Order_Date raw) ->
   Processing_Time row
   = Calendar.day (raw_Ship_Date raw) - Calendar.day (raw_Order_Date raw)).
Proof.
  intros Hload. apply load_row_loaded_from in Hload.
  destruct Hload as [Hparse Hfrom]. unfold dates_parse in Hparse.
  apply andb_true_iff in Hparse. destruct Hparse as [Ho Hs].
  apply date_parses_valid in Ho. apply date_parses_valid in Hs.
  unfold loaded_from in Hfrom.
  destruct Hfrom as (_ & Hod & Hsd & _ & _ & _ & _ & _ & _ & _ & _ & _ & _ & _ & Hpt).
  rewrite Hpt, Hod, Hsd.
  destruct (days_from_civil_order (raw_Ship_Date raw) (raw_Order_Date raw) Hs Ho)
    as [Hlt Heq].
  destruct (days_from_civil_order (raw_Order_Date raw) (raw_Ship_Date raw) Ho Hs)
    as [Hgt _].
  split; [| split; [| split]].
  - rewrite <- Heq. lia.
  - rewrite <- Hlt. lia.
  - rewrite <- Hgt. lia.
  - intros Hy Hm. now apply days_from_civil_same_month.
Qed.

Lemma processing_time_sign_witness :
  (Processing_Time Scenario.late_row = 0 <->
   raw_Ship_Date Sample.shipped_before_ordered
   = raw_Order_Date Sample.shipped_before_ordered) /\
  (Processing_Time Scenario.late_row < 0 <->
   civil_before (raw_Ship_Date Sample.shipped_before_ordered)
     (raw_Order_Date Sample.shipped_before_ordered)) /\
  (0 < Processing_Time Scenario.late_row <->
   civil_before (raw_Order_Date Sample.shipped_before_ordered)
     (raw_Ship_Date Sample.shipped_before_ordered)) /\
  (Calendar.year (raw_Ship_Date Sample.shipped_before_ordered)
   = Calendar.year (raw_Order_Date Sample.shipped_before_ordered) ->
   Calendar.month (raw_Ship_Date Sample.shipped_before_ordered)
   = Calendar.month (raw_Order_Date Sample.shipped_before_ordered) ->
   Processing_Time Scenario.late_row
   = Calendar.day (raw_Ship_Date Sample.shipped_before_ordered)
     - Calendar.day (raw_Order_Date Sample.shipped_before_ordered)).
Proof.
  apply (processing_time_sign Sample.shipped_before_ordered Scenario.late_row).
  reflexivity.
Defined.

(** *** The dates a timestamp holds *)

Lemma date_parses_iff (c : Calendar.Civil) :
  date_parses c = true <-> Calendar.valid c = true /\ timestamp_holds c.
Proof.
  assert (Hf : Calendar.valid timestamp_first = true) by reflexivity.
  assert (Hl : Calendar.valid timestamp_last = true) by reflexivity.
  assert (Df : Calendar.days_from_civil timestamp_first = -106751) by reflexivity.
  assert (Dl : Calendar.days_from_civil timestamp_last = 106751) by reflexivity.
  unfold date_parses, in_timestamp_bounds, nanoseconds, timestamp_holds, civil_le.
  rewrite !andb_true_iff, !Z.leb_le. split.
  - intros [Hv [Hlo Hhi]]. split; [exact Hv |].
    destruct (days_from_civil_order timestamp_first c Hf Hv) as [Hlt Heq].
    destruct (days_from_civil_order c timestamp_last Hv Hl) as [Hlt' Heq'].
    rewrite Df in Hlt, Heq. rewrite Dl in Hlt', Heq'.
    generalize dependent (Calendar.days_from_civil c). intros z Hlo Hhi Hlt Heq Hlt' Heq'.
    split.
    + destruct (Z.eq_dec (-106751) z) as [E | E];
        [left; now apply Heq | right; apply Hlt; lia].
    + destruct (Z.eq_dec z 106751) as [E | E];
        [left; now apply Heq' | right; apply Hlt'; lia].
  - intros [Hv [Hfirst Hlast]]. split; [exact Hv |].
    destruct (days_from_civil_order timestamp_first c Hf Hv) as [Hlt Heq].
    destruct (days_from_civil_order c timestamp_last Hv Hl) as [Hlt' Heq'].
    rewrite Df in Hlt, Heq. rewrite Dl in Hlt', Heq'.
    assert (Hlo : -106751 <= Calendar.days_from_civil c).
    { destruct Hfirst as [E | B]; [apply Heq in E; lia | apply Hlt in B; lia]. }
    assert (Hhi : Calendar.days_from_civil c <= 106751).
    { destruct Hlast as [E | B]; [apply Heq' in E; lia | apply Hlt' in B; lia]. }
    clear Hlt Heq Hlt' Heq' Hfirst Hlast.
    generalize dependent (Calendar.days_from_civil c). intros z Hlo Hhi. lia.
Qed.

Lemma difference_fits_iff (raw : RawRow) :
  difference_fits raw = true <->
  -106751 <= Calendar.days_from_civil (raw_Ship_Date raw)
             - Calendar.days_from_civil (raw_Order_Date raw) <= 106751.
Proof.
  unfold difference_fits, in_int64, nanoseconds.
  rewrite andb_true_iff, !Z.leb_le.
  generalize (Calendar.days_from_civil (raw_Ship_Date raw)).
  generalize (Calendar.days_from_civil (raw_Order_Date raw)).
  intros o s. lia.
Qed.

Lemma dates_parse_iff (raw : RawRow) :
  dates_parse raw = true <->
  (Calendar.valid (raw_Order_Date raw) = true /\
   timestamp_holds (raw_Order_Date raw)) /\
  (Calendar.valid (raw_Ship_Date raw) = true /\
   timestamp_holds (raw_Ship_Date raw)).
Proof. unfold dates_parse. now rewrite andb_true_iff, !date_parses_iff. Qed.

(** X7. One cell fails the whole load.  The loader raises the [ValueError]
    of [pd.to_datetime] exactly when some line has a date cell that does
    not parse; it raises on the subtraction exactly when every cell parses
    and some line has its two dates more than 106751 days apart; and it
    returns a table exactly when neither happens.  A cell parses when it
    spells a date of the calendar from 1677-09-22 to 2262-04-11, the dates
    a timestamp holds: a line of the year 3000 fails the load, so does one
    of 1677-09-21, and so does one ordered in 1700 and shipped in 2200. *)
Theorem bad_date_fails_load (fs : FileSystem) (rows : list RawRow) :
  source_table fs rows ->
  (load_data fs = ([], Raise DateParseError) <->
   exists raw, In raw rows /\ dates_parse raw = false) /\
  (load_data fs = ([], Raise TimedeltaOverflow) <->
   (forall raw, In raw rows -> dates_parse raw = true) /\
   exists raw, In raw rows /\ difference_fits raw = false) /\
  ((exists df, load_data fs = ([], Ok df)) <->
   forall raw, In raw rows ->
               dates_parse raw = true /\ difference_fits raw = true) /\
  (forall raw,
      (dates_parse raw = true <->
       (Calendar.valid (raw_Order_Date raw) = true /\
        timestamp_holds (raw_Order_Date raw)) /\
       (Calendar.valid (raw_Ship_Date raw) = true /\
        timestamp_holds (raw_Ship_Date raw))) /\
      (difference_fits raw = true <->
       -106751 <= Calendar.days_from_civil (raw_Ship_Date raw)
                  - Calendar.days_from_civil (raw_Order_Date raw) <= 106751)) /\
  (Calendar.valid (raw_Order_Date Scenario.far_future_line) = true /\
   load_row Scenario.far_future_line = Raise DateParseError) /\
  (Calendar.valid (raw_Order_Date Scenario.far_past_line) = true /\
   load_row Scenario.far_past_line = Raise DateParseError) /\
  (dates_parse Scenario.far_apart_line = true /\
   load_row Scenario.far_apart_line = Raise TimedeltaOverflow).
Proof.
  intros Hsrc. rewrite (load_data_source_table fs rows Hsrc).
  pose proof (forallb_false_exists dates_parse rows) as Hex.
  pose proof (forallb_false_exists difference_fits rows) as Hfx.
  pose proof (forallb_forall dates_parse rows) as Hall.
  pose proof (forallb_forall difference_fits rows) as Hfit.
  split; [| split; [| split; [| split]]].
  - destruct (load_columns_outcome rows)
      as [(Hp & Hd & ->) | [(Hp & ->) | (Hp & Hd & ->)]].
    + split; [discriminate |]. intros H. apply Hex in H. congruence.
    + split; [intros _; now apply Hex | reflexivity].
    + split; [discriminate |]. intros H. apply Hex in H. congruence.
  - destruct (load_columns_outcome rows)
      as [(Hp & Hd & ->) | [(Hp & ->) | (Hp & Hd & ->)]].
    + split; [discriminate |]. intros [_ H]. apply Hfx in H. congruence.
    + split; [discriminate |]. intros [H _]. apply Hall in H. congruence.
    + split; [| reflexivity]. intros _.
      split; [now apply Hall | now apply Hfx].
  - destruct (load_columns_outcome rows)
      as [(Hp & Hd & ->) | [(Hp & ->) | (Hp & Hd & ->)]].
    + split; [| intros _; eexists; reflexivity].
      intros _ raw Hraw. split; [now apply Hall | now apply Hfit].
    + split; [intros [df Hdf]; discriminate |]. intros H.
      assert (forallb dates_parse rows = true)
        by (apply Hall; intros raw Hraw; now apply H).
      congruence.
    + split; [intros [df Hdf]; discriminate |]. intros H.
      assert (forallb difference_fits rows = true)
        by (apply Hfit; intros raw Hraw; now apply H).
      congruence.
  - intros raw. split; [apply dates_parse_iff | apply difference_fits_iff].
  - repeat split; reflexivity.
Qed.

Lemma bad_date_fails_load_witness :
  load_data Scenario.bad_date_file = ([], Raise DateParseError) <->
  exists raw, In raw [Sample.shipped_in_four; Scenario.bad_date_line] /\
              dates_parse raw = false.
Proof.
  apply (bad_date_fails_load Scenario.bad_date_file
           [Sample.shipped_in_four; Scenario.bad_date_line]).
  left. reflexivity.
Defined.

(** *** Processing time counts the days of the calendar *)


(** *** Grouping splits the table *)

Lemma filter_partition {A : Type} (p : A -> bool) (l : list A) :
  Permutation (filter p l ++ filter (fun a => negb (p a)) l) l.
Proof.
  induction l as [| a l IH]; simpl; [constructor |].
  destruct (p a); simpl.
  - now constructor.
  - rewrite <- Permutation_middle. now constructor.
Qed.

Section Partition.

Context {K : Type} (eqb leb : K -> K -> bool).
Hypothesis eqb_eq : forall a b, eqb a b = true <-> a = b.
Variable key : Row -> K.

(** Over any duplicate-free list of keys that covers the table, the groups
    hold the rows of the table, each row once. *)
Lemma groups_cover (ks : list K) :
  NoDup ks ->
  forall df, (forall r, In r df -> In (key r) ks) ->
  Permutation (List.concat (map (group eqb key df) ks)) df.
Proof.
  induction 1 as [| k ks Hk Hnd IH]; intros df Hcover.
  - destruct df as [| r df]; [constructor |].
    destruct (Hcover r (or_introl eq_refl)).
  - simpl. set (rest := filter (fun r => negb (eqb (key r) k)) df).
    assert (Hsame : map (group eqb key df) ks = map (group eqb key rest) ks).
    { apply map_ext_in. intros k' Hk'. unfold rest. symmetry.
      apply (group_without eqb eqb_eq key). intros ->. contradiction. }
    rewrite Hsame, (IH rest).
    + unfold group, rest. apply filter_partition.
    + intros r Hr. apply filter_In in Hr. destruct Hr as [Hr Hne].
      destruct (Hcover r Hr) as [Heq | Hin]; [| exact Hin].
      rewrite negb_true_iff, <- Heq in Hne.
      assert (eqb k k = true) by now apply eqb_eq.
      congruence.
Qed.

Lemma groupby_partition (df : DataFrame) :
  Permutation (List.concat (map snd (groupby eqb leb key df))) df.
Proof.
  unfold groupby. rewrite map_map. cbn [snd].
  apply groups_cover.
  - now apply group_keys_NoDup.
  - intros r Hr. apply (group_keys_In eqb leb eqb_eq). now exists r.
Qed.

End Partition.

(** C8, as the code has it. However the filtered subset is grouped (by one
    text column, by a tuple of several, or by month), the groups hold the
    records of the subset, each record in one group and once, and no group
    of a column grouping is empty: the group sums are sums over the same
    amounts as the total. *)
Theorem grouping_conserves_sales (fdf : DataFrame) :
  (forall (col : Row -> string) (cols : list (Row -> string)),
      Permutation (List.concat (map snd (groupby_columns (col :: cols) fdf))) fdf /\
      (forall kg, In kg (groupby_columns (col :: cols) fdf) -> snd kg <> [])) /\
  (forall key : Row -> string,
      Permutation (List.concat (map snd (groupby String.eqb String.leb key fdf))) fdf /\
      (forall kg, In kg (groupby String.eqb String.leb key fdf) ->
                  snd kg <> [])) /\
  Permutation (List.concat (map (fun mi => in_month mi fdf) (month_bins fdf))) fdf.
Proof.
  split; [| split].
  - intros col cols. split.
    + apply groupby_partition. exact keys_eqb_eq.
    + intros kg Hkg Hnil.
      destruct (groupby_nonempty keys_eqb keys_leb keys_eqb_eq _ fdf kg Hkg)
        as [r [Hr _]].
      rewrite Hnil in Hr. destruct Hr.
  - intros key. split.
    + apply groupby_partition. exact String.eqb_eq.
    + intros kg Hkg Hnil.
      destruct (groupby_nonempty String.eqb String.leb String.eqb_eq key fdf kg Hkg)
        as [r [Hr _]].
      rewrite Hnil in Hr. destruct Hr.
  - apply (groups_cover Z.eqb Z.eqb_eq
             (fun r => Calendar.month_index (Order_Date r))
             (month_bins fdf) (month_bins_NoDup fdf) fdf).
    intros r. apply month_bins_In.
Qed.

(** C8, as the specification words it, fails on float64: with sales of 0.3
    and 0.2 in one category and 0.1 in another, the category sums are 0.5
    and 0.1 and add up to 0.6, while the sum of the three sales is
    0.6000000000000001 (each number read as the nearest float64). *)
Lemma grouped_sales_round_apart :
  Binary64Tables.category_sales Sample.tenths
  = [("Furniture"%string, Binary64.of_Q 0.5);
     ("Technology"%string, Binary64.of_Q 0.1)] /\
  Binary64.sum (map snd (Binary64Tables.category_sales Sample.tenths))
  = Some (Binary64.of_Q 0.6) /\
  Binary64Tables.total_sales Sample.tenths
  = Some (Binary64.of_Q 0.6000000000000001) /\
  PrimFloat.ltb (Binary64.of_Q 0.6) (Binary64.of_Q 0.6000000000000001) = true.
Proof. repeat split; reflexivity. Qed.
